(** * Go telemetry: server-side ingestion, the uploader pass and the
      crash-monitor test helper, as a shallow embedding.

    Sources embedded here:
    - [godev/cmd/telemetrygodev/main.go]: [handleUpload], [warn], [validate];
    - the two revisions of [upload.Uploader.Run] and [disabledOnPlatform];
    - [crashmonitor/monitor_test.go]: [sanitize] and the expected counter
      names of [TestViaStderr] and [TestStart].

    Go strings are byte strings, so they are [string] (a list of 8-bit
    [ascii]); [map[string]int64] is [gmap string Z]; [float64] is the
    kernel's binary64 [float]; an [error] is represented by its [Error()]
    text, and a nil error by [None]. *)

From Stdlib Require Import ZArith String Ascii List Bool Lia Floats DecimalString.
From stdpp Require Import base option list gmap strings.

#[local] Open Scope string_scope.

(** Go's [error] interface, observed through [Error()]. *)
Definition error := string.

(** The Go string literal ["\n"]: the one byte 0x0A. *)
Definition nl : string := String "010"%char "".

(* ===================================================================== *)
(** ** Package [strings] (the functions the sources call) *)
(* ===================================================================== *)

Module strings.

(** [s[lo:hi]]. *)
Definition slice (s : string) (lo hi : nat) : string :=
  substring lo (hi - lo) s.

(** [strings.Index(s, sep)]: first byte offset of [sep] in [s]. *)
Definition Index (s sep : string) : option nat := index 0 sep s.

(** [strings.Cut(s, sep)]:
    [if i := Index(s, sep); i >= 0 { return s[:i], s[i+len(sep):], true }
     return s, "", false]. *)
Definition Cut (s sep : string) : string * string * bool :=
  match Index s sep with
  | Some i => (slice s 0 i, slice s (i + String.length sep) (String.length s), true)
  | None => (s, "", false)
  end.

(** [strings.HasPrefix(s, prefix)]. *)
Definition HasPrefix (s prefix : string) : bool := String.prefix prefix s.

(** [strings.Split(s, sep)] for a non-empty [sep]: cut at every
    occurrence of [sep].  Each cut consumes at least one byte, so
    [String.length s] rounds always suffice ([genSplit_byte] below). *)
Fixpoint genSplit (n : nat) (s sep : string) : list string :=
  match n with
  | O => [s]
  | S n' =>
      match Cut s sep with
      | (before, after, true) => before :: genSplit n' after sep
      | (_, _, false) => [s]
      end
  end.

Definition Split (s sep : string) : list string :=
  genSplit (String.length s) s sep.

(** [strings.Join(elems, sep)]. *)
Fixpoint Join (elems : list string) (sep : string) : string :=
  match elems with
  | [] => ""
  | [e] => e
  | e :: rest => e +:+ sep +:+ Join rest sep
  end.

(** Structural reading of [Cut] for a one-byte separator: the bytes
    before the first [c], and the bytes after it. *)
Fixpoint cut_byte (c : ascii) (s : string) : option (string * string) :=
  match s with
  | "" => None
  | String a s' =>
      if Ascii.eqb a c then Some ("", s')
      else match cut_byte c s' with
           | Some (b, r) => Some (String a b, r)
           | None => None
           end
  end.

(** Structural reading of [Split] for a one-byte separator. *)
Fixpoint split_byte (c : ascii) (s : string) : list string :=
  match s with
  | "" => [""]
  | String a s' =>
      if Ascii.eqb a c then "" :: split_byte c s'
      else match split_byte c s' with
           | h :: t => String a h :: t
           | [] => [String a ""]
           end
  end.

(** [c] occurs in [s]. *)
Fixpoint contains_byte (c : ascii) (s : string) : bool :=
  match s with
  | "" => false
  | String a s' => Ascii.eqb a c || contains_byte c s'
  end.

(** [strings.HasSuffix(s, suffix)]. *)
Definition HasSuffix (s suffix : string) : bool :=
  (String.length suffix <=? String.length s)%nat &&
  String.eqb (slice s (String.length s - String.length suffix) (String.length s))
             suffix.

(** [strings.TrimPrefix(s, prefix)]. *)
Definition TrimPrefix (s prefix : string) : string :=
  if HasPrefix s prefix then slice s (String.length prefix) (String.length s)
  else s.

(** [strings.TrimSuffix(s, suffix)]. *)
Definition TrimSuffix (s suffix : string) : string :=
  if HasSuffix s suffix then slice s 0 (String.length s - String.length suffix)
  else s.

(** The loop of [strings.Replace(s, old, new, -1)] for a non-empty [old]:
    copy up to the next occurrence of [old], write [new], go on behind
    the occurrence. *)
Fixpoint replace_loop (n : nat) (s old new : string) : string :=
  match n with
  | O => s
  | S n' =>
      match Cut s old with
      | (before, after, true) => before +:+ new +:+ replace_loop n' after old new
      | (_, _, false) => s
      end
  end.

(** [strings.ReplaceAll(s, old, new)] for a non-empty [old]. *)
Definition ReplaceAll (s old new : string) : string :=
  if String.eqb old new then s else replace_loop (String.length s) s old new.

(** [s] without the bytes [c]. *)
Fixpoint remove_byte (c : ascii) (s : string) : string :=
  match s with
  | "" => ""
  | String a s' =>
      if Ascii.eqb a c then remove_byte c s' else String a (remove_byte c s')
  end.

End strings.

(* ===================================================================== *)
(** ** Package [path] *)
(* ===================================================================== *)

Module path.

(** The output buffer of [Clean] is kept last byte first. *)

(** [out.w--; for out.w > dotdot && out.index(out.w) != '/' { out.w-- }]:
    drop bytes from the end until the byte dropped is a slash or the
    buffer is down to [dotdot] bytes. *)
Fixpoint backtrack (out : list ascii) (dotdot : nat) : list ascii :=
  match out with
  | [] => []
  | c :: out' =>
      if (length out' <=? dotdot)%nat || Ascii.eqb c "/"
      then out'
      else backtrack out' dotdot
  end.

(** [for ; r < n && path[r] != '/'; r++ { out.append(path[r]) }]. *)
Fixpoint copy_element (rest : string) (out : list ascii) : string * list ascii :=
  match rest with
  | "" => ("", out)
  | String c rest' =>
      if Ascii.eqb c "/" then (rest, out) else copy_element rest' (c :: out)
  end.

(** [r == n || path[r] == '/'] for the suffix [rest = path[r:]]. *)
Definition at_end_or_slash (rest : string) : bool :=
  match rest with
  | "" => true
  | String c _ => Ascii.eqb c "/"
  end.

(** The loop [for r < n] of [Clean], on the suffix [path[r:]]. *)
Fixpoint clean_loop (fuel : nat) (rooted : bool) (rest : string)
    (out : list ascii) (dotdot : nat) : list ascii :=
  match fuel with
  | O => out
  | S fuel' =>
      match rest with
      | "" => out
      | String c rest1 =>
          if Ascii.eqb c "/" then
            (* empty path element *)
            clean_loop fuel' rooted rest1 out dotdot
          else if Ascii.eqb c "." && at_end_or_slash rest1 then
            (* . element *)
            clean_loop fuel' rooted rest1 out dotdot
          else if Ascii.eqb c "." &&
                  match rest1 with
                  | String c1 rest2 => Ascii.eqb c1 "." && at_end_or_slash rest2
                  | "" => false
                  end
          then
            (* .. element: remove to last / *)
            let rest2 := match rest1 with String _ r2 => r2 | "" => "" end in
            if (dotdot <? length out)%nat then
              clean_loop fuel' rooted rest2 (backtrack out dotdot) dotdot
            else if negb rooted then
              let out1 := if (0 <? length out)%nat then "/"%char :: out else out in
              let out2 := "."%char :: "."%char :: out1 in
              clean_loop fuel' rooted rest2 out2 (length out2)
            else
              clean_loop fuel' rooted rest2 out dotdot
          else
            (* real path element: add slash if needed, copy element *)
            let out1 :=
              if (rooted && negb (length out =? 1)%nat) ||
                 (negb rooted && negb (length out =? 0)%nat)
              then "/"%char :: out else out in
            let '(rest', out2) := copy_element rest out1 in
            clean_loop fuel' rooted rest' out2 dotdot
      end
  end.

(** [path.Clean(path)]: the shortest path name equivalent to [path] by
    purely lexical processing. *)
Definition Clean (path : string) : string :=
  match path with
  | "" => "."
  | String c tail =>
      let rooted := Ascii.eqb c "/" in
      let out :=
        if rooted
        then clean_loop (String.length path) rooted tail ["/"%char] 1
        else clean_loop (String.length path) rooted path [] 0 in
      if (length out =? 0)%nat then "."
      else string_of_list_ascii (rev out)
  end.

(** [for len(path) > 0 && path[len(path)-1] == '/' { path = path[:len(path)-1] }],
    on the bytes of [path] last byte first. *)
Fixpoint strip_slashes (rpath : list ascii) : list ascii :=
  match rpath with
  | c :: rpath' => if Ascii.eqb c "/" then strip_slashes rpath' else rpath
  | [] => []
  end.

(** [path[lastSlash(path)+1:]], on the bytes of [path] last byte first. *)
Fixpoint last_element (rpath : list ascii) : list ascii :=
  match rpath with
  | c :: rpath' => if Ascii.eqb c "/" then [] else c :: last_element rpath'
  | [] => []
  end.

(** [path.Base(path)]: the last element of [path], without trailing
    slashes; ["."] for the empty path and ["/"] for a path of slashes. *)
Definition Base (path : string) : string :=
  match path with
  | "" => "."
  | _ =>
      match last_element (strip_slashes (rev (list_ascii_of_string path))) with
      | [] => "/"
      | element => string_of_list_ascii (rev element)
      end
  end.

End path.

(* ===================================================================== *)
(** ** Package [fmt]: the integer verbs of [LogIfDebug]'s file name *)
(* ===================================================================== *)

Module fmt.

#[local] Open Scope Z_scope.

(** The decimal digits of a natural number. *)
Definition digits (n : Z) : string :=
  DecimalString.NilZero.string_of_uint (N.to_uint (Z.to_N n)).

(** [c] repeated up to the width [wid], then [s]. *)
Definition pad_left (c : ascii) (wid : nat) (s : string) : string :=
  string_of_list_ascii (repeat c (wid - String.length s)) +:+ s.

(** The verb [%d]. *)
Definition d (n : Z) : string :=
  if n <? 0 then "-" +:+ digits (- n) else digits n.

(** The verb [%4d]: padded with spaces on the left to four bytes. *)
Definition d4 (n : Z) : string := pad_left " " 4 (d n).

(** The verb [%02d]: padded with zeros, after the sign, to two bytes. *)
Definition d02 (n : Z) : string :=
  if n <? 0 then "-" +:+ pad_left "0" 1 (digits (- n))
  else pad_left "0" 2 (digits n).

End fmt.

(* ===================================================================== *)
(** ** Package [internal/telemetry]: the report types *)
(* ===================================================================== *)

Module telemetry.

(** Modelled from the spec: the declaration of [telemetry.ProgramReport]
    (internal/telemetry) is not among the sources; the fields are the
    ones of the data model and of the wire format, and the ones
    [validate] reads. *)
Record ProgramReport := {
  Program : string;
  Version : string;
  GoVersion : string;
  GOOS : string;
  GOARCH : string;
  Counters : gmap string Z;
  Stacks : gmap string Z;
}.

(** Modelled from the spec: the declaration of [telemetry.Report]
    (internal/telemetry) is not among the sources. *)
Record Report := {
  Week : string;
  X : float;
  Programs : list ProgramReport;
  Config : string;
}.

End telemetry.

(* ===================================================================== *)
(** ** Package [internal/config]: the upload configuration *)
(* ===================================================================== *)

Module tconfig.

(** Modelled from the spec: the [Config] wrapper of internal/config is
    not among the sources.  The spec's upload configuration is the
    versioned allow-list of permitted platforms, programs, versions,
    counters and stack prefixes; the [Has*] methods that [validate]
    calls are membership in these lists. *)
Record Config := {
  goarch : gset string;
  goos : gset string;
  goversion : gset string;
  program : gset string;
  pgversion : gset (string * string);
  pgcounter : gset (string * string);
  pgstack : gset (string * string);
}.

Definition HasGOARCH (cfg : Config) (s : string) : bool :=
  bool_decide (s ∈ goarch cfg).
Definition HasGOOS (cfg : Config) (s : string) : bool :=
  bool_decide (s ∈ goos cfg).
Definition HasGoVersion (cfg : Config) (s : string) : bool :=
  bool_decide (s ∈ goversion cfg).
Definition HasProgram (cfg : Config) (s : string) : bool :=
  bool_decide (s ∈ program cfg).
Definition HasVersion (cfg : Config) (prog version : string) : bool :=
  bool_decide ((prog, version) ∈ pgversion cfg).
Definition HasCounter (cfg : Config) (prog counter : string) : bool :=
  bool_decide ((prog, counter) ∈ pgcounter cfg).
Definition HasStack (cfg : Config) (prog stack : string) : bool :=
  bool_decide ((prog, stack) ∈ pgstack cfg).

(** [cfg'] allows everything that [cfg] allows. *)
Definition allows_more (cfg cfg' : Config) : Prop :=
  goarch cfg ⊆ goarch cfg' /\
  goos cfg ⊆ goos cfg' /\
  goversion cfg ⊆ goversion cfg' /\
  program cfg ⊆ program cfg' /\
  pgversion cfg ⊆ pgversion cfg' /\
  pgcounter cfg ⊆ pgcounter cfg' /\
  pgstack cfg ⊆ pgstack cfg'.

End tconfig.

(* ===================================================================== *)
(** ** The library functions the server calls *)
(* ===================================================================== *)

(** A parsed date-only [time.Time]: year, month, day. *)
Definition Time := (Z * Z * Z)%type.

(** The functions of the Go standard library and of [golang.org/x/mod]
    that [main.go] calls and that are not part of this repository.  The
    development is parametric in them: every theorem of the server holds
    for any implementation. *)
Class GoLib := {
  (** [time.Parse(layout, value)] *)
  time_Parse : string -> string -> Time + error;
  (** [semver.IsValid(v)] *)
  semver_IsValid : string -> bool;
  (** the verb [%g] of package [fmt] on a [float64] *)
  fmt_g : float -> string;
  (** the verb [%q] of package [fmt] on a string *)
  fmt_q : string -> string;
  (** [json.NewDecoder(body).Decode(&report)] on the whole body *)
  json_Decode : string -> telemetry.Report + error;
  (** [json.Marshal(report)], the bytes [Encode] writes before the newline *)
  json_Marshal : telemetry.Report -> string + error;
}.

(** [for _, x := range xs { if err := body(x); err != nil { return err } }]:
    the first error of the loop body, in iteration order. *)
Fixpoint range_err {A} (xs : list A) (body : A -> option error) : option error :=
  match xs with
  | [] => None
  | x :: xs' =>
      match body x with
      | Some e => Some e
      | None => range_err xs' body
      end
  end.

(** The keys a [for k := range m] loop visits.  Go leaves the order
    unspecified; the embedding fixes one.  Only the identity of the first
    error depends on it, never whether there is one. *)
Definition keys (m : gmap string Z) : list string := (map_to_list m).*1.

(* ===================================================================== *)
(** ** Package [unicode/utf8] and the conversions [[]rune(s)], [string(rs)] *)
(* ===================================================================== *)

Module utf8.

#[local] Open Scope Z_scope.

(** A [rune] is an [int32] code point. *)
Definition rune := Z.

Definition RuneError : rune := 0xFFFD.
Definition MaxRune : rune := 0x10FFFF.
Definition surrogateMin : Z := 0xD800.
Definition surrogateMax : Z := 0xDFFF.

Definition t2 : Z := 0xC0.
Definition t3 : Z := 0xE0.
Definition t4 : Z := 0xF0.
Definition tx : Z := 0x80.
Definition maskx : Z := 0x3F.
Definition mask2 : Z := 0x1F.
Definition mask3 : Z := 0x0F.
Definition mask4 : Z := 0x07.
Definition locb : Z := 0x80.
Definition hicb : Z := 0xBF.

Definition byte_of (a : ascii) : Z := Z.of_N (N_of_ascii a).
Definition to_byte (b : Z) : ascii := ascii_of_N (Z.to_N (b mod 256)).

(** What the table [first] says of a leading byte: plain ASCII, never
    valid, or the start of a [sz]-byte sequence whose second byte lies
    in [lo..hi] (the table [acceptRanges]). *)
Inductive lead := LeadASCII | LeadInvalid | Lead (sz : nat) (lo hi : Z).

Definition first (b : Z) : lead :=
  if b <? 0x80 then LeadASCII
  else if b <? 0xC2 then LeadInvalid
  else if b <? 0xE0 then Lead 2 locb hicb
  else if b =? 0xE0 then Lead 3 0xA0 hicb
  else if b <? 0xED then Lead 3 locb hicb
  else if b =? 0xED then Lead 3 locb 0x9F
  else if b <? 0xF0 then Lead 3 locb hicb
  else if b =? 0xF0 then Lead 4 0x90 hicb
  else if b <? 0xF4 then Lead 4 locb hicb
  else if b =? 0xF4 then Lead 4 locb 0x8F
  else LeadInvalid.

(** [s[i]] for an index known to be in range. *)
Definition at_ (s : string) (i : nat) : Z :=
  match String.get i s with Some a => byte_of a | None => 0 end.

(** [utf8.DecodeRuneInString(s)]: the first rune of [s] and its width
    in bytes; an invalid or short encoding is [RuneError] of width 1. *)
Definition DecodeRuneInString (s : string) : rune * nat :=
  match s with
  | "" => (RuneError, 0%nat)
  | String a _ =>
      let s0 := byte_of a in
      match first s0 with
      | LeadASCII => (s0, 1%nat)
      | LeadInvalid => (RuneError, 1%nat)
      | Lead sz lo hi =>
          if (String.length s <? sz)%nat then (RuneError, 1%nat)
          else
            let s1 := at_ s 1 in
            if (s1 <? lo) || (hi <? s1) then (RuneError, 1%nat)
            else if (sz <=? 2)%nat then
              (Z.lor (Z.shiftl (Z.land s0 mask2) 6) (Z.land s1 maskx), 2%nat)
            else
              let s2 := at_ s 2 in
              if (s2 <? locb) || (hicb <? s2) then (RuneError, 1%nat)
              else if (sz <=? 3)%nat then
                (Z.lor (Z.lor (Z.shiftl (Z.land s0 mask3) 12)
                              (Z.shiftl (Z.land s1 maskx) 6))
                       (Z.land s2 maskx), 3%nat)
              else
                let s3 := at_ s 3 in
                if (s3 <? locb) || (hicb <? s3) then (RuneError, 1%nat)
                else
                  (Z.lor (Z.lor (Z.lor (Z.shiftl (Z.land s0 mask4) 18)
                                       (Z.shiftl (Z.land s1 maskx) 12))
                                (Z.shiftl (Z.land s2 maskx) 6))
                         (Z.land s3 maskx), 4%nat)
      end
  end.

(** [s[n:]]. *)
Fixpoint drop_bytes (n : nat) (s : string) : string :=
  match n, s with
  | O, _ => s
  | S n', String _ s' => drop_bytes n' s'
  | S _, "" => ""
  end.

(** [[]rune(s)]: decode rune after rune.  Every round consumes at least
    one byte, so [String.length s] rounds reach the end of [s]. *)
Fixpoint decode (fuel : nat) (s : string) : list rune :=
  match fuel with
  | O => []
  | S fuel' =>
      match s with
      | "" => []
      | _ =>
          let '(r, size) := DecodeRuneInString s in
          r :: decode fuel' (drop_bytes size s)
      end
  end.

Definition runes (s : string) : list rune := decode (String.length s) s.

(** [uint32(r)] of an [int32]. *)
Definition uint32 (r : rune) : Z := r mod 2 ^ 32.

Definition encode3 (r : rune) : string :=
  String (to_byte (Z.lor t3 (Z.shiftr r 12)))
    (String (to_byte (Z.lor tx (Z.land (Z.shiftr r 6) maskx)))
       (String (to_byte (Z.lor tx (Z.land r maskx))) "")).

(** [utf8.AppendRune(nil, r)]: the UTF-8 encoding of [r]; a surrogate or
    out-of-range rune is encoded as [RuneError]. *)
Definition EncodeRune (r : rune) : string :=
  let i := uint32 r in
  if i <=? 0x7F then String (to_byte r) ""
  else if i <=? 0x7FF then
    String (to_byte (Z.lor t2 (Z.shiftr r 6)))
      (String (to_byte (Z.lor tx (Z.land r maskx))) "")
  else if (MaxRune <? i) || ((surrogateMin <=? i) && (i <=? surrogateMax)) then
    encode3 RuneError
  else if i <=? 0xFFFF then encode3 r
  else
    String (to_byte (Z.lor t4 (Z.shiftr r 18)))
      (String (to_byte (Z.lor tx (Z.land (Z.shiftr r 12) maskx)))
         (String (to_byte (Z.lor tx (Z.land (Z.shiftr r 6) maskx)))
            (String (to_byte (Z.lor tx (Z.land r maskx))) ""))).

(** [string(rs)] of a rune slice. *)
Fixpoint string_of_runes (rs : list rune) : string :=
  match rs with
  | [] => ""
  | r :: rs' => EncodeRune r +:+ string_of_runes rs'
  end.

(** [utf8.RuneCountInString(s)]. *)
Definition RuneCountInString (s : string) : nat := length (runes s).

(** The rune that decoding the encoding of [r] gives: [r] itself when
    it is a Unicode scalar value, and [RuneError] otherwise. *)
Definition scalar_or_error (r : rune) : rune :=
  if (r <? 0) || (MaxRune <? r) ||
     ((surrogateMin <=? r) && (r <=? surrogateMax))
  then RuneError else r.

(** Every byte of [s] is below [utf8.RuneSelf], that is [s] is ASCII. *)
Fixpoint ascii_only (s : string) : bool :=
  match s with
  | "" => true
  | String a s' => (byte_of a <? 0x80) && ascii_only s'
  end.

(** The values of an [int32], the type of a [rune]. *)
Definition is_int32 (r : Z) : Prop := - 2 ^ 31 <= r < 2 ^ 31.

End utf8.

(* ===================================================================== *)
(** ** Packages [net/http], [godev/internal/content], [godev/internal/storage] *)
(* ===================================================================== *)

Module http.
Definition StatusOK : Z := 200.
Definition StatusBadRequest : Z := 400.
Definition StatusMethodNotAllowed : Z := 405.

(** The two fields of [*http.Request] that [handleUpload] reads. *)
Record Request := { Method : string; Body : string }.
End http.

Module content.

(** Modelled from the spec: package godev/internal/content is not among
    the sources.  What a [content.HandlerFunc] hands back decides the
    HTTP response: [content.Status(w, code)] answers with [code];
    [content.Error(err, code)] answers with [code] and the description
    of [err] as body; any other error is returned as it is. *)
Inductive Result :=
| Status (code : Z)
| Error (err : error) (code : Z)
| Failed (err : error).

(** The status code of the response, where the spec gives one. *)
Definition status_code (r : Result) : option Z :=
  match r with
  | Status code => Some code
  | Error _ code => Some code
  | Failed _ => None
  end.

(** The error description in the body of the response. *)
Definition description (r : Result) : option string :=
  match r with
  | Error err _ => Some err
  | _ => None
  end.

End content.

Module storage.

(** Modelled from the spec: package godev/internal/storage is not among
    the sources.  A bucket maps object names to contents, and the
    backend is assumed to provide atomic per-object writes: an object
    becomes visible, whole, when its writer is closed successfully, and
    a writer that failed or was closed already commits nothing. *)
Record API := {
  Upload : gmap string string;
  Merge : gmap string string;
  Chart : gmap string string;
}.

(** The I/O errors the backend reports to one request, if any. *)
Record Faults := {
  NewWriter_err : option error;
  Write_err : option error;
  Close_err : option error;
}.

Definition no_faults : Faults :=
  {| NewWriter_err := None; Write_err := None; Close_err := None |}.

(** An [io.WriteCloser] on the object [w_name] of the upload bucket. *)
Record Writer := {
  w_name : string;
  w_buf : string;
  w_done : bool;
}.

(** [buckets.Upload.Object(name).NewWriter(ctx)] *)
Definition NewWriter (io : Faults) (name : string) : Writer + error :=
  match NewWriter_err io with
  | Some e => inr e
  | None => inl {| w_name := name; w_buf := ""; w_done := false |}
  end.

(** [f.Write(data)] *)
Definition Write (io : Faults) (f : Writer) (data : string) : Writer * option error :=
  match Write_err io with
  | Some e => ({| w_name := w_name f; w_buf := w_buf f; w_done := true |}, Some e)
  | None => ({| w_name := w_name f; w_buf := w_buf f +:+ data; w_done := w_done f |}, None)
  end.

(** The buckets with the upload bucket replaced. *)
Definition set_Upload (b : API) (u : gmap string string) : API :=
  {| Upload := u; Merge := Merge b; Chart := Chart b |}.

(** [f.Close()] *)
Definition Close (io : Faults) (f : Writer) (b : API) : Writer * API * option error :=
  let f' := {| w_name := w_name f; w_buf := w_buf f; w_done := true |} in
  if w_done f then (f', b, Some "storage: writer is closed")
  else match Close_err io with
       | Some e => (f', b, Some e)
       | None => (f', set_Upload b (<[w_name f := w_buf f]> (Upload b)), None)
       end.

End storage.

(* ===================================================================== *)
(** ** [godev/cmd/telemetrygodev/main.go] *)
(* ===================================================================== *)

Module telemetrygodev.
Import telemetry.

(** What a request can change: the buckets, and the lines the
    [slog.Logger] has written at level WARN. *)
Record Server := {
  buckets : storage.API;
  logged : list string;
}.

Section main.
Context `{GoLib}.

(** [validate] validates the telemetry report data against the latest
    config. *)
Definition validate (r : Report) (cfg : tconfig.Config) : option error :=
  match time_Parse "2006-01-02" (Week r) with
  | inr _ => Some ("invalid week " +:+ Week r)
  | inl _ =>
      if negb (semver_IsValid (Config r)) then
        Some ("invalid config " +:+ Config r)
      else if PrimFloat.eqb (X r) 0%float then
        Some ("invalid X " +:+ fmt_g (X r))
      else
        range_err (Programs r) (fun p =>
          if negb (tconfig.HasGOARCH cfg (GOARCH p)) ||
             negb (tconfig.HasGOOS cfg (GOOS p)) ||
             negb (tconfig.HasGoVersion cfg (GoVersion p)) ||
             negb (tconfig.HasProgram cfg (Program p)) ||
             negb (tconfig.HasVersion cfg (Program p) (Version p))
          then
            Some ("unknown program build " +:+ Program p +:+ "@" +:+
                  fmt_q (Version p) +:+ " " +:+ fmt_q (GoVersion p) +:+
                  " " +:+ GOOS p +:+ "/" +:+ GOARCH p)
          else
            match range_err (keys (Counters p)) (fun c =>
                    if negb (tconfig.HasCounter cfg (Program p) c) then
                      Some ("unknown counter " +:+ c)
                    else None)
            with
            | Some e => Some e
            | None =>
                range_err (keys (Stacks p)) (fun s =>
                  let '(prefix, _, _) := strings.Cut s nl in
                  if negb (tconfig.HasStack cfg (Program p) prefix) then
                    Some ("unknown stack " +:+ s)
                  else None)
            end)
  end.

(** The rune slice [warn] logs for an error: all of it, or its first
    79 runes and an ellipsis when it has more than 80. *)
Definition truncate (errs : list utf8.rune) : list utf8.rune :=
  if (80 <? length errs)%nat then (take 79 errs ++ [0x2026%Z])%list else errs.

(** The closure [warn] of [handleUpload]: log the error, but only the
    first 80 characters. *)
Definition warn (msg : string) (err : error) (s : Server) : Server :=
  let errs := utf8.runes err in
  let errs := truncate errs in
  {| buckets := buckets s;
     logged := (logged s ++ [msg +:+ ": " +:+ utf8.string_of_runes errs])%list |}.

(** The object name [fmt.Sprintf("%s/%g.json", report.Week, report.X)]. *)
Definition object_name (report : Report) : string :=
  Week report +:+ "/" +:+ fmt_g (X report) +:+ ".json".

(** [json.NewEncoder(f).Encode(report)]: marshal, then write the bytes
    and a newline in one [Write]. *)
Definition Encode (io : storage.Faults) (f : storage.Writer) (report : Report)
  : storage.Writer * option error :=
  match json_Marshal report with
  | inr e => (f, Some e)
  | inl b => storage.Write io f (b +:+ nl)
  end.

(** [defer f.Close()]: runs when the handler returns; its error is
    dropped. *)
Definition deferred_Close (io : storage.Faults) (f : storage.Writer)
    (out : content.Result) (s : Server) : content.Result * Server :=
  let '(_, b, _) := storage.Close io f (buckets s) in
  (out, {| buckets := b; logged := logged s |}).

(** The handler that [handleUpload(ucfg, buckets, log)] returns, run
    on one request [r]; [io] are the storage errors met meanwhile. *)
Definition handleUpload (ucfg : tconfig.Config) (io : storage.Faults)
    (r : http.Request) (s : Server) : content.Result * Server :=
  if String.eqb (http.Method r) "POST" then
    match json_Decode (http.Body r) with
    | inr err =>
        (content.Error err http.StatusBadRequest,
         warn "invalid JSON payload" err s)
    | inl report =>
        match validate report ucfg with
        | Some err =>
            (content.Error err http.StatusBadRequest,
             warn "invalid report" err s)
        | None =>
            let name := object_name report in
            match storage.NewWriter io name with
            | inr err => (content.Failed err, s)
            | inl f =>
                match Encode io f report with
                | (f, Some err) => deferred_Close io f (content.Failed err) s
                | (f, None) =>
                    match storage.Close io f (buckets s) with
                    | (f, b, Some err) =>
                        deferred_Close io f (content.Failed err)
                          {| buckets := b; logged := logged s |}
                    | (f, b, None) =>
                        deferred_Close io f (content.Status http.StatusOK)
                          {| buckets := b; logged := logged s |}
                    end
                end
            end
        end
    end
  else
    (content.Status http.StatusMethodNotAllowed, s).

(** The spec's reading of a stack key: its first line, that is the
    bytes up to the first newline. *)
Fixpoint first_line (s : string) : string :=
  match s with
  | "" => ""
  | String a s' => if Ascii.eqb a "010" then "" else String a (first_line s')
  end.

(** The spec's list of reasons for which IngestValidator rejects a
    report, in the spec's words and order. *)
Definition spec_rejects (r : Report) (cfg : tconfig.Config) : Prop :=
  (exists err, time_Parse "2006-01-02" (Week r) = inr err)
  \/ semver_IsValid (Config r) = false
  \/ PrimFloat.eqb (X r) 0%float = true
  \/ (exists p, p ∈ Programs r /\
        (GOARCH p ∉ tconfig.goarch cfg \/
         GOOS p ∉ tconfig.goos cfg \/
         GoVersion p ∉ tconfig.goversion cfg \/
         Program p ∉ tconfig.program cfg \/
         (Program p, Version p) ∉ tconfig.pgversion cfg))
  \/ (exists p c, p ∈ Programs r /\ c ∈ dom (Counters p) /\
        (Program p, c) ∉ tconfig.pgcounter cfg)
  \/ (exists p s, p ∈ Programs r /\ s ∈ dom (Stacks p) /\
        (Program p, first_line s) ∉ tconfig.pgstack cfg).

(** The body of the loop of [validate] over the programs. *)
Definition validate_program (cfg : tconfig.Config) (p : ProgramReport)
  : option error :=
  if negb (tconfig.HasGOARCH cfg (GOARCH p)) ||
     negb (tconfig.HasGOOS cfg (GOOS p)) ||
     negb (tconfig.HasGoVersion cfg (GoVersion p)) ||
     negb (tconfig.HasProgram cfg (Program p)) ||
     negb (tconfig.HasVersion cfg (Program p) (Version p))
  then
    Some ("unknown program build " +:+ Program p +:+ "@" +:+
          fmt_q (Version p) +:+ " " +:+ fmt_q (GoVersion p) +:+
          " " +:+ GOOS p +:+ "/" +:+ GOARCH p)
  else
    match range_err (keys (Counters p)) (fun c =>
            if negb (tconfig.HasCounter cfg (Program p) c) then
              Some ("unknown counter " +:+ c)
            else None)
    with
    | Some e => Some e
    | None =>
        range_err (keys (Stacks p)) (fun s =>
          let '(prefix, _, _) := strings.Cut s nl in
          if negb (tconfig.HasStack cfg (Program p) prefix) then
            Some ("unknown stack " +:+ s)
          else None)
    end.

(** The program report [p'] is a part of [p]: the same build, and no
    counter or stack key that [p] does not have. *)
Definition program_part_of (p' p : ProgramReport) : Prop :=
  Program p' = Program p /\ Version p' = Version p /\
  GoVersion p' = GoVersion p /\ GOOS p' = GOOS p /\ GOARCH p' = GOARCH p /\
  dom (Counters p') ⊆ dom (Counters p) /\
  dom (Stacks p') ⊆ dom (Stacks p).

(** The report [r'] is a part of [r]: the same week, [X] and config, and
    every program report a part of one of [r]. *)
Definition part_of (r' r : Report) : Prop :=
  Week r' = Week r /\ X r' = X r /\ Config r' = Config r /\
  forall p', p' ∈ Programs r' ->
    exists p, p ∈ Programs r /\ program_part_of p' p.

(** The report [r] with other programs. *)
Definition with_Programs (r : Report) (ps : list ProgramReport) : Report :=
  {| Week := Week r; X := X r; Programs := ps; Config := Config r |}.

End main.

(** *** The pages: [handleRoot] and [handleChart] *)

(** [type link struct { Text, URL string }]. *)
Record link := { Text : string; URL : string }.

(** [type indexPage struct { Charts, Reports []*link }]. *)
Record indexPage := { Charts : list link; Reports : list link }.

(** What a page handler hands back: a rendered template
    ([content.Template(w, fsys, name, data, code)]), the answer of the
    static content server ([cserv.ServeHTTP]), or a plain result. *)
Inductive Page (Data : Type) :=
| Template (name : string) (data : Data) (code : Z)
| Static
| Plain (r : content.Result).
Arguments Template {Data}.
Arguments Static {Data}.
Arguments Plain {Data}.

(** What the calls of [it.Next()] return before
    [storage.ErrObjectIteratorDone]: an object name and nil, or an error
    of another kind (the loops of [handleRoot] ignore it and use the
    name returned with it). *)
Definition Listing := list (string * option error).

(** The function that [handleRoot(fsys, buckets)] returns, on a request
    for [urlPath]; [charts] and [merged] are the listings of the chart
    and merge buckets and [mergeURI] is [buckets.Merge.URI()]. *)
Definition handleRoot (charts merged : Listing) (mergeURI : string)
    (urlPath : string) : Page indexPage :=
  if negb (String.eqb urlPath "/") then Static
  else
    let page_Charts :=
      map (fun '(obj, _) =>
             let date := strings.TrimSuffix obj ".json" in
             {| Text := date; URL := "/charts/" +:+ date |}) charts in
    let page_Reports :=
      map (fun '(obj, _) =>
             {| Text := strings.TrimSuffix obj ".json";
                URL := mergeURI +:+ "/" +:+ obj |}) merged in
    Template "index.html"
      {| Charts := page_Charts; Reports := page_Reports |} http.StatusOK.

Definition StatusNotFound : Z := 404.

(** The errors a reader of the chart bucket can meet, other than
    [storage.ErrObjectNotExist] for a missing object. *)
Record ReadFaults := {
  NewReader_err : option error;
  ReadAll_err : option error;
}.

Definition no_read_faults : ReadFaults :=
  {| NewReader_err := None; ReadAll_err := None |}.

Section charts.
(** The decoded charts, [map[string]any], and [json.Unmarshal] into it. *)
Context {Charts : Type} (json_Unmarshal : string -> Charts + error).

(** The function that [handleChart(fsys, buckets)] returns, on a request
    for [urlPath]. *)
Definition handleChart (io : ReadFaults) (b : storage.API) (urlPath : string)
  : Page Charts :=
  let p := strings.TrimPrefix (path.Clean urlPath) "/charts/" in
  match NewReader_err io with
  | Some err => Plain (content.Failed err)
  | None =>
      match storage.Chart b !! (p +:+ ".json") with
      | None => Plain (content.Status StatusNotFound)
      | Some data =>
          match ReadAll_err io with
          | Some err => Plain (content.Failed err)
          | None =>
              match json_Unmarshal data with
              | inr err => Plain (content.Failed err)
              | inl charts => Template "charts.html" charts http.StatusOK
              end
          end
      end
  end.

End charts.

End telemetrygodev.

(* ===================================================================== *)
(** ** Package [upload]: one pass of the uploader *)
(* ===================================================================== *)

Module runtime.
(** The build-time constants [runtime.GOOS] and [runtime.GOARCH]. *)
Class Platform := { GOOS : string; GOARCH : string }.
End runtime.

Module upload.

(** The calls [Run] makes, in the order it makes them. *)
Inductive Event :=
| FindWork
| Reports
| Printf (line : string)
| UploadReport (fname : string).

(** Modelled from the spec: the methods [findWork] (WorkFinder),
    [reports] (ReportBuilder) and [uploadReport] (Uploader), the struct
    types they work on and the constant [telemetry.DisabledOnPlatform]
    are not among the sources.  [World] is everything they read and
    change (counter files, cache, network).  [uploadReport] hands
    nothing back to [Run]; the error recorded here is the failure it
    met and logged, if any. *)
Class Collaborators (Uploader World Work : Type) := {
  findWork : Uploader -> World -> Work * World;
  reports : Uploader -> Work -> World -> (list string * option error) * World;
  uploadReport : Uploader -> string -> World -> option error * World;
  DisabledOnPlatform : bool;
}.

Section pass.
Context {Uploader World Work : Type} `{Collaborators Uploader World Work}.

(** A computation over the world that records the calls it makes. *)
Definition M (A : Type) : Type := World -> A * World * list Event.

Definition ret {A} (a : A) : M A := fun w => (a, w, []).

Definition bind {A B} (m : M A) (k : A -> M B) : M B :=
  fun w =>
    let '(a, w1, t1) := m w in
    let '(b, w2, t2) := k a w1 in
    (b, w2, (t1 ++ t2)%list).

(** Call a collaborator, recording the call. *)
Definition call {A} (e : Event) (f : World -> A * World) : M A :=
  fun w => let '(a, w') := f w in (a, w', [e]).

(** [logger.Printf]. *)
Definition logger_Printf (line : string) : M unit :=
  fun w => (tt, w, [Printf line]).

(** [for _, f := range xs { body(f) }]. *)
Fixpoint for_range {A} (xs : list A) (body : A -> M unit) : M unit :=
  match xs with
  | [] => ret tt
  | x :: xs' => bind (body x) (fun _ => for_range xs' body)
  end.

(** The body that both revisions of [Run] share after the platform
    test. *)
Definition pass (u : Uploader) : M unit :=
  bind (call FindWork (findWork u)) (fun todo =>
  bind (call Reports (reports u todo)) (fun '(ready, err) =>
  bind (match err with
        | Some e => logger_Printf ("reports: " +:+ e)
        | None => ret tt
        end) (fun _ =>
  for_range ready (fun f =>
    bind (call (UploadReport f) (uploadReport u f)) (fun _ => ret tt))))).

End pass.

(** An [io.Writer], by the name of where it writes; nil is [None]. *)
Definition Writer := string.

(** The output of the package's [logger]: [io.Discard] after [init], one
    writer, or an [io.MultiWriter]. *)
Inductive Output :=
| Discard
| Single (w : Writer)
| Multi (ws : list Writer).

(** The writers that get a copy of each line the logger prints, in the
    order they are written to. *)
Definition destinations (o : Output) : list Writer :=
  match o with
  | Discard => []
  | Single w => [w]
  | Multi ws => ws
  end.

(** The revision that keeps [LocalDir] and [UploadDir] in the struct. *)
Module rev1.
Section Run.
Context {Uploader World Work : Type} `{Collaborators Uploader World Work}.
Context `{runtime.Platform}.

(** [disabledOnPlatform] indicates whether telemetry is disabled due
    to bugs in the current platform. *)
Definition disabledOnPlatform : bool :=
  false ||
  String.eqb runtime.GOOS "openbsd" ||
  String.eqb runtime.GOOS "solaris" ||
  String.eqb runtime.GOOS "android" ||
  String.eqb runtime.GOOS "js" ||
  String.eqb runtime.GOOS "wasip1" ||
  String.eqb runtime.GOARCH "386".

(** [Run] generates and uploads reports. *)
Definition Run (u : Uploader) : M unit :=
  if disabledOnPlatform then ret tt else pass u.
End Run.

(** [SetLogOutput] sets the default logger's output destination. *)
Definition SetLogOutput (logging : option Writer) (logger : Output) : Output :=
  match logging with
  | Some w => Single w
  | None => logger
  end.

(** The calls [SetLogOutput(w)] for the writers [ws], one after the
    other. *)
Definition SetLogOutputs (ws : list (option Writer)) (logger : Output) : Output :=
  foldl (fun logger w => SetLogOutput w logger) logger ws.

End rev1.

(** The revision that keeps a [telemetry.Dir] in the struct. *)
Module rev2.
Section Run.
Context {Uploader World Work : Type} `{Collaborators Uploader World Work}.

(** [Run] generates and uploads reports. *)
Definition Run (u : Uploader) : M unit :=
  if DisabledOnPlatform then ret tt else pass u.
End Run.

(** The package variables [logger] and [seenlogwriters]. *)
Record Logging := {
  logger : Output;
  seenlogwriters : list Writer;
}.

(** After [init]: the logger discards, and no writer has been seen. *)
Definition init : Logging := {| logger := Discard; seenlogwriters := [] |}.

(** [SetLogOutput] sets the default logger's output destination. *)
Definition SetLogOutput (logging : option Writer) (st : Logging) : Logging :=
  match logging with
  | None => st
  | Some w =>
      let seen := (seenlogwriters st ++ [w])%list in
      {| logger := if (1 <? length seen)%nat then Multi seen else Single w;
         seenlogwriters := seen |}
  end.

(** The calls [SetLogOutput(w)] for the writers [ws], one after the
    other. *)
Definition SetLogOutputs (ws : list (option Writer)) (st : Logging) : Logging :=
  foldl (fun st w => SetLogOutput w st) st ws.

(** The fields of [debug.BuildInfo] that [LogIfDebug] reads. *)
Record BuildInfo := {
  GoVersion : string;
  Path : string;
  Main_Version : string;
}.

(** What [LogIfDebug] asks the process: [debug.ReadBuildInfo()], the
    date of [time.Now().UTC()], [os.Getpid()], [os.Args[0]] and
    [telemetry.Default.LocalDir()]. *)
Record Process := {
  ReadBuildInfo : option BuildInfo;
  Date : Z * Z * Z;
  Getpid : Z;
  Args0 : string;
  LocalDir : string;
}.

(** The functions of the standard library that depend on the operating
    system or on Unicode tables: [filepath.Join] of two elements,
    [filepath.Base] and [strings.Fields]. *)
Class PathLib := {
  filepath_Join : string -> string -> string;
  filepath_Base : string -> string;
  strings_Fields : string -> list string;
}.

(** The file system, as far as [LogIfDebug] sees it: the names that
    exist, and whether each is a directory. *)
Abbreviation FS := (gmap string bool).

(** [os.Stat(name)]: whether [name] is a directory, or an error. *)
Definition os_Stat (fs : FS) (name : string) : bool + error :=
  match fs !! name with
  | Some isDir => inl isDir
  | None => inr ("stat " +:+ name +:+ ": no such file or directory")
  end.

(** [os.Create(name)]: the file exists afterwards, unless the system
    reports the error [fault]. *)
Definition os_Create (fault : option error) (fs : FS) (name : string)
  : FS + error :=
  match fault with
  | Some e => inr e
  | None => inl (<[name := false]> fs)
  end.

(** How a call ends: it returns an error or nil, or it panics. *)
Inductive Outcome :=
| Return (err : option error)
| Panic (msg : string).

Section LogIfDebug.
Context `{PathLib}.

(** The directory that [LogIfDebug(dirname)] looks for: [dirname], or
    [LocalDir/debug] for the empty string. *)
Definition debug_dir (proc : Process) (dirname : string) : string :=
  if negb (String.eqb dirname "") then dirname
  else filepath_Join (LocalDir proc) "debug".

(** The name of the log file of this process in the directory [dname],
    before the spaces are taken out. *)
Definition log_name (dname prog progVers goVers : string) (date : Z * Z * Z)
    (pid : Z) : string :=
  let '(year, month, day) := date in
  filepath_Join dname
    (prog +:+ "-" +:+ progVers +:+ "-" +:+ goVers +:+ "-" +:+
     fmt.d4 year +:+ fmt.d02 month +:+ fmt.d02 day +:+ "-" +:+
     fmt.d pid +:+ ".log").

(** [LogIfDebug] arranges to write a log file in the directory
    [dirname], if it exists.  If [dirname] is the empty string, the
    function tries the directory [LocalDir/debug]. *)
Definition LogIfDebug (proc : Process) (create_fault : option error)
    (dirname : string) (st : FS * Logging) : Outcome * (FS * Logging) :=
  let '(fs, log) := st in
  let dname := filepath_Join (LocalDir proc) "debug" in
  let dname := if negb (String.eqb dirname "") then dirname else dname in
  match os_Stat fs dname with
  | inr err => (Return (Some err), st)
  | inl isDir =>
      if negb isDir then
        (* debug doesn't exist or isn't a directory *)
        (Return None, st)
      else
        match ReadBuildInfo proc with
        | None => (Return (Some "no build info"), st)
        | Some info =>
            let words := strings_Fields (GoVersion info) in
            match words with
            | [] => (Panic "runtime error: index out of range [0] with length 0", st)
            | goVers :: _ =>
                let progPkgPath := Path info in
                let progPkgPath :=
                  if String.eqb progPkgPath "" then
                    strings.TrimSuffix (filepath_Base (Args0 proc)) ".exe"
                  else progPkgPath in
                let prog := path.Base progPkgPath in
                let progVers := Main_Version info in
                let fname :=
                  log_name dname prog progVers goVers (Date proc) (Getpid proc) in
                let fname := strings.ReplaceAll fname " " "" in
                match os_Stat fs fname with
                | inl _ =>
                    (* This process previously called upload.Run *)
                    (Return None, st)
                | inr _ =>
                    match os_Create create_fault fs fname with
                    | inr err => (Return (Some err), st)
                    | inl fs' =>
                        (Return None, (fs', SetLogOutput (Some fname) log))
                    end
                end
            end
        end
  end.

End LogIfDebug.

End rev2.

(** The report files whose upload a trace attempts, in order. *)
Fixpoint attempted (t : list Event) : list string :=
  match t with
  | [] => []
  | UploadReport f :: t' => f :: attempted t'
  | _ :: t' => attempted t'
  end.

(** The platforms the constant of [rev1] names. *)
Definition disabled_GOOS : list string :=
  ["openbsd"; "solaris"; "android"; "js"; "wasip1"].
Definition disabled_GOARCH : list string := ["386"].

End upload.

(* ===================================================================== *)
(** ** [crashmonitor/monitor_test.go] *)
(* ===================================================================== *)

Module crashmonitor.

(** The import path of the crash monitor's own package. *)
Definition own_package : string := "golang.org/x/telemetry/crashmonitor".

(** [sanitize] redacts the line numbers that we don't control from a
    counter name. *)
Definition sanitize (name : string) : string :=
  let lines := strings.Split name nl in
  let lines :=
    map (fun line =>
           let '(symbol, _, ok) := strings.Cut line ":" in
           if ok && negb (strings.HasPrefix line own_package)
           then symbol +:+ ":--"
           else line) lines in
  strings.Join lines nl.

(** What the loop of [sanitize] does to one line. *)
Definition redact (line : string) : string :=
  let '(symbol, _, ok) := strings.Cut line ":" in
  if ok && negb (strings.HasPrefix line own_package)
  then symbol +:+ ":--"
  else line.

(** The counter name [TestViaStderr] expects. *)
Definition TestViaStderr_want : string :=
  "crash/crash" +:+ nl +:+
  "runtime.gopanic:--" +:+ nl +:+
  "golang.org/x/telemetry/crashmonitor.grandchild:1" +:+ nl +:+
  "golang.org/x/telemetry/crashmonitor.child:2" +:+ nl +:+
  "golang.org/x/telemetry/crashmonitor.TestMain:9" +:+ nl +:+
  "main.main:--" +:+ nl +:+
  "runtime.main:--" +:+ nl +:+
  "runtime.goexit:--".

(** The counter name [TestStart] expects. *)
Definition TestStart_want : string :=
  "crash/crash" +:+ nl +:+
  "runtime.gopanic:--" +:+ nl +:+
  "golang.org/x/telemetry/crashmonitor.grandchild:1" +:+ nl +:+
  "golang.org/x/telemetry/crashmonitor.child:2" +:+ nl +:+
  "golang.org/x/telemetry/crashmonitor.TestMain.func2:1" +:+ nl +:+
  "runtime.goexit:--".

(** A counter name as a decoded stack could look before [sanitize]:
    the frames of [TestViaStderr_want] with the line numbers that the
    runtime reports. *)
Definition raw_stack : string :=
  "crash/crash" +:+ nl +:+
  "runtime.gopanic:69" +:+ nl +:+
  "golang.org/x/telemetry/crashmonitor.grandchild:1" +:+ nl +:+
  "golang.org/x/telemetry/crashmonitor.child:2" +:+ nl +:+
  "golang.org/x/telemetry/crashmonitor.TestMain:9" +:+ nl +:+
  "main.main:35" +:+ nl +:+
  "runtime.main:190" +:+ nl +:+
  "runtime.goexit:1".

(** The guard of [sanitize]: the line begins with the bytes of the
    package path.  The lines of a package whose path only begins with
    these bytes ([crashmonitor_test], [crashmonitor/internal/...]) pass
    it as well. *)
Definition own_frame (line : string) : bool :=
  strings.HasPrefix line own_package.


(** Modelled from the spec: [telemetryCounterName], the sanitizer that
    turns the raw text of a crash into a counter name or fails, and
    [counter.DecodeStack], which expands a stack counter name into its
    lines, are not among the sources; only the tests that call them
    are.  Nothing is assumed of them here: what is known of them is what
    the tests require. *)
Class Sanitizer := {
  telemetryCounterName : string -> string + error;
  DecodeStack : string -> string;
}.

(** [TestViaStderr], on the text [stderr] that the crashed child has
    written: whether the test passes. *)
Definition TestViaStderr `{Sanitizer} (stderr : string) : bool :=
  match telemetryCounterName stderr with
  | inr err => false
  | inl got =>
      let got := sanitize (DecodeStack got) in
      let want := TestViaStderr_want in
      String.eqb got want
  end.

End crashmonitor.

(* ===================================================================== *)
(** ** Concrete values on which the development is run *)
(* ===================================================================== *)

Module fixture.
Import telemetry.

#[local] Open Scope Z_scope.

Definition digit (a : ascii) : option Z :=
  let n := Z.of_N (N_of_ascii a) in
  if (48 <=? n) && (n <=? 57) then Some (n - 48) else None.

Definition isLeap (year : Z) : bool :=
  (year mod 4 =? 0) && (negb (year mod 100 =? 0) || (year mod 400 =? 0)).

Definition daysIn (month year : Z) : Z :=
  if month =? 2 then (if isLeap year then 29 else 28)
  else if (month =? 4) || (month =? 6) || (month =? 9) || (month =? 11) then 30
  else 31.

(** [time.Parse] for the layout ["2006-01-02"]: four digits, a dash, two
    digits, a dash, two digits and nothing else; the month in 1..12 and
    the day within the month. *)
Definition parse_date (value : string) : Time + error :=
  match value with
  | String y1 (String y2 (String y3 (String y4 (String dash1
      (String m1 (String m2 (String dash2 (String d1 (String d2 ""))))))))) =>
      match digit y1, digit y2, digit y3, digit y4,
            digit m1, digit m2, digit d1, digit d2 with
      | Some a, Some b, Some c, Some d, Some e, Some f, Some g, Some h =>
          let year := 1000 * a + 100 * b + 10 * c + d in
          let month := 10 * e + f in
          let day := 10 * g + h in
          if negb (Ascii.eqb dash1 "-") || negb (Ascii.eqb dash2 "-") then
            inr ("parsing time " +:+ value)
          else if (month <? 1) || (12 <? month) then
            inr ("parsing time " +:+ value +:+ ": month out of range")
          else if (day <? 1) || (daysIn month year <? day) then
            inr ("parsing time " +:+ value +:+ ": day out of range")
          else inl (year, month, day)
      | _, _, _, _, _, _, _, _ => inr ("parsing time " +:+ value)
      end
  | _ => inr ("parsing time " +:+ value)
  end.

(** A decimal number without a leading zero, then the rest. *)
Fixpoint skip_digits (s : string) : string :=
  match s with
  | String a s' =>
      match digit a with
      | Some _ => skip_digits s'
      | None => s
      end
  | "" => ""
  end.

Definition parseInt (v : string) : option string :=
  match v with
  | String a rest =>
      match digit a with
      | None => None
      | Some 0 => match rest with
                  | String b _ =>
                      match digit b with
                      | Some _ => None
                      | None => Some rest
                      end
                  | "" => Some rest
                  end
      | Some _ => Some (skip_digits rest)
      end
  | "" => None
  end.

(** The release versions [vMAJOR], [vMAJOR.MINOR] and
    [vMAJOR.MINOR.PATCH] that [semver.IsValid] accepts; versions with a
    prerelease or build suffix are left out of this instance. *)
Definition release_version (v : string) : bool :=
  match v with
  | String "v" v1 =>
      match parseInt v1 with
      | Some "" => true
      | Some (String "." v2) =>
          match parseInt v2 with
          | Some "" => true
          | Some (String "." v3) =>
              match parseInt v3 with
              | Some "" => true
              | _ => false
              end
          | _ => false
          end
      | _ => false
      end
  | _ => false
  end.

Definition quote : string := String (ascii_of_nat 34) "".

(** The renderings [%g] gives for the floats used below. *)
Definition render_g (x : float) : string :=
  if PrimFloat.eqb x 0.5%float then "0.5"
  else if PrimFloat.eqb x 0.25%float then "0.25"
  else if PrimFloat.eqb x 1000000%float then "1e+06"
  else if PrimFloat.eqb x 0%float then "0"
  else "?".

Definition go_counters : gmap string Z := {[ "compile/success" := 3 ]}.

Definition go_program : ProgramReport :=
  {| Program := "go"; Version := "go1.22"; GoVersion := "go1.22";
     GOOS := "linux"; GOARCH := "amd64";
     Counters := go_counters; Stacks := ∅ |}.

(** The report of the spec's concrete scenario. *)
Definition report : Report :=
  {| Week := "2024-01-08"; X := 0.5%float;
     Programs := [go_program]; Config := "v1.0.0" |}.

(** A report without programs. *)
Definition empty_report : Report :=
  {| Week := "2024-01-08"; X := 0.25%float;
     Programs := []; Config := "v1.0.0" |}.

(** A report with a counter that the configuration does not list. *)
Definition spoofed_report : Report :=
  {| Week := "2024-01-08"; X := 0.5%float;
     Programs :=
       [{| Program := "go"; Version := "go1.22"; GoVersion := "go1.22";
           GOOS := "linux"; GOARCH := "amd64";
           Counters := {[ "compile/success" := 3; "secret/path" := 1 ]};
           Stacks := ∅ |}];
     Config := "v1.0.0" |}.

(** A counter name of 96 bytes, one of them the two-byte rune U+00E9. *)
Definition long_counter : string :=
  "café/0123456789012345678901234567890123456789012345678901234567890123456789012345678901234567890".

(** A report with a long counter that the configuration does not list. *)
Definition long_report : Report :=
  {| Week := "2024-01-08"; X := 0.5%float;
     Programs :=
       [{| Program := "go"; Version := "go1.22"; GoVersion := "go1.22";
           GOOS := "linux"; GOARCH := "amd64";
           Counters := {[ long_counter := 1 ]};
           Stacks := ∅ |}];
     Config := "v1.0.0" |}.

(** Request bodies standing for the JSON of the reports above. *)
Definition body : string := "{report}".
Definition empty_body : string := "{empty_report}".
Definition spoofed_body : string := "{spoofed_report}".
Definition long_body : string := "{long_report}".

Definition decode (b : string) : Report + error :=
  if String.eqb b body then inl report
  else if String.eqb b empty_body then inl empty_report
  else if String.eqb b spoofed_body then inl spoofed_report
  else if String.eqb b long_body then inl long_report
  else inr "invalid character in JSON payload".

Definition marshal (r : Report) : string + error :=
  inl ("{Week:" +:+ Week r +:+ ",X:" +:+ render_g (X r) +:+ ",Config:" +:+
       Config r +:+ "}").

(** An instance of the library interface: the date layout and the
    release versions as above, and tables for formatting and JSON. *)
Definition lib : GoLib :=
  {| time_Parse := fun layout value =>
       if String.eqb layout "2006-01-02" then parse_date value
       else inr ("layout " +:+ layout);
     semver_IsValid := release_version;
     fmt_g := render_g;
     fmt_q := fun s => quote +:+ s +:+ quote;
     json_Decode := decode;
     json_Marshal := marshal |}.

(** The upload configuration of the spec's concrete scenario. *)
Definition ucfg : tconfig.Config :=
  {| tconfig.goarch := {[ "amd64" ]};
     tconfig.goos := {[ "linux" ]};
     tconfig.goversion := {[ "go1.22" ]};
     tconfig.program := {[ "go" ]};
     tconfig.pgversion := {[ ("go", "go1.22") ]};
     tconfig.pgcounter := {[ ("go", "compile/success") ]};
     tconfig.pgstack := {[ ("go", "crash/crash") ]} |}.

Definition empty_api : storage.API :=
  {| storage.Upload := ∅; storage.Merge := ∅; storage.Chart := ∅ |}.

Definition server0 : telemetrygodev.Server :=
  {| telemetrygodev.buckets := empty_api; telemetrygodev.logged := [] |}.

Definition POST (b : string) : http.Request :=
  {| http.Method := "POST"; http.Body := b |}.

(** Collaborators of the uploader for a world that is the list of the
    report files uploaded so far: two reports are ready, and the upload
    of the first one fails. *)
Definition collaborators (disabled : bool) : upload.Collaborators unit (list string) unit :=
  {| upload.findWork := fun _ w => (tt, w);
     upload.reports := fun _ _ w => ((["2024-01-08.json"; "2024-01-15.json"], None), w);
     upload.uploadReport := fun _ f w =>
       if String.eqb f "2024-01-08.json" then (Some "503 Service Unavailable", w)
       else (None, (w ++ [f])%list);
     upload.DisabledOnPlatform := disabled |}.

Definition openbsd : runtime.Platform :=
  {| runtime.GOOS := "openbsd"; runtime.GOARCH := "amd64" |}.
Definition linux_amd64 : runtime.Platform :=
  {| runtime.GOOS := "linux"; runtime.GOARCH := "amd64" |}.

(** [filepath.Join], [filepath.Base] and [strings.Fields] on Unix, the
    latter for strings of ASCII. *)
Definition unix : upload.rev2.PathLib :=
  {| upload.rev2.filepath_Join := fun a b =>
       if String.eqb a "" then path.Clean b
       else if String.eqb b "" then path.Clean a
       else path.Clean (a +:+ "/" +:+ b);
     upload.rev2.filepath_Base := path.Base;
     upload.rev2.strings_Fields := String.words |}.

(** A [gopls] process on 9 January 2024. *)
Definition gopls : upload.rev2.Process :=
  {| upload.rev2.ReadBuildInfo :=
       Some {| upload.rev2.GoVersion :=
                 "go1.22-20240109-RC01 cl/597041403 +dcbe772469 X:loopvar";
               upload.rev2.Path := "golang.org/x/tools/gopls";
               upload.rev2.Main_Version := "v0.14.2" |};
     upload.rev2.Date := (2024, 1, 9);
     upload.rev2.Getpid := 4711;
     upload.rev2.Args0 := "/usr/local/bin/gopls";
     upload.rev2.LocalDir := "/home/gopher/.config/go/telemetry/local" |}.

(** The same process one day later. *)
Definition gopls_next_day : upload.rev2.Process :=
  {| upload.rev2.ReadBuildInfo := upload.rev2.ReadBuildInfo gopls;
     upload.rev2.Date := (2024, 1, 10);
     upload.rev2.Getpid := upload.rev2.Getpid gopls;
     upload.rev2.Args0 := upload.rev2.Args0 gopls;
     upload.rev2.LocalDir := upload.rev2.LocalDir gopls |}.

(** A file system that has the debug directory. *)
Definition debug_fs : gmap string bool :=
  {[ "/home/gopher/.config/go/telemetry/local/debug" := true ]}.

(** A file system whose debug directory has a space in its path. *)
Definition spaced_fs : gmap string bool :=
  {[ "/home/go pher/debug" := true ]}.

(** The package state after the client has asked for logging to stderr. *)
Definition client_logging : upload.rev2.Logging :=
  upload.rev2.SetLogOutput (Some "stderr") upload.rev2.init.

(** Listings of the chart and merge buckets, and a chart bucket. *)
Definition chart_listing : telemetrygodev.Listing :=
  [("2024-01-08.json", None); ("2024-01-15.json", None)].
Definition merge_listing : telemetrygodev.Listing :=
  [("2024-01-08.json", None)].
Definition chart_api : storage.API :=
  {| storage.Upload := ∅; storage.Merge := ∅;
     storage.Chart := {[ "2024-01-08.json" := "{charts of 2024-01-08}";
                         "2024-01-15.json" := "{charts of 2024-01-15}" ]} |}.

(** A stand-in for [json.Unmarshal]: the charts are the bytes read. *)
Definition unmarshal (data : string) : string + error := inl data.

(** A second report for the week and [X] of [report], with another
    counter value. *)
Definition report_again : Report :=
  {| Week := "2024-01-08"; X := 0.5%float;
     Programs :=
       [{| Program := "go"; Version := "go1.22"; GoVersion := "go1.22";
           GOOS := "linux"; GOARCH := "amd64";
           Counters := {[ "compile/success" := 7 ]}; Stacks := ∅ |}];
     Config := "v1.0.1" |}.
Definition body_again : string := "{report_again}".

(** [lib] with a decoder that also knows [body_again]. *)
Definition lib_again : GoLib :=
  {| time_Parse := @time_Parse lib;
     semver_IsValid := @semver_IsValid lib;
     fmt_g := @fmt_g lib;
     fmt_q := @fmt_q lib;
     json_Decode := fun b =>
       if String.eqb b body_again then inl report_again else decode b;
     json_Marshal := @json_Marshal lib |}.

(** A configuration that allows more than [ucfg]. *)
Definition ucfg_wider : tconfig.Config :=
  {| tconfig.goarch := {[ "amd64"; "arm64" ]};
     tconfig.goos := {[ "linux"; "darwin" ]};
     tconfig.goversion := {[ "go1.22"; "go1.23" ]};
     tconfig.program := {[ "go"; "gopls" ]};
     tconfig.pgversion := {[ ("go", "go1.22"); ("go", "go1.23") ]};
     tconfig.pgcounter := {[ ("go", "compile/success"); ("go", "secret/path") ]};
     tconfig.pgstack := {[ ("go", "crash/crash") ]} |}.

(** A stand-in for the sanitizer on which [TestViaStderr] passes: it
    names every crash as that test expects. *)
Definition passing_sanitizer : crashmonitor.Sanitizer :=
  {| crashmonitor.telemetryCounterName := fun _ => inl crashmonitor.TestViaStderr_want;
     crashmonitor.DecodeStack := fun name => name |}.

End fixture.

(* ===================================================================== *)
(** * Facts about the string functions *)
(* ===================================================================== *)

Module strings_facts.
Import strings.

Lemma append_cons (a : ascii) (s t : string) :
  String a s +:+ t = String a (s +:+ t).
Proof. reflexivity. Qed.

Lemma append_nil_l (t : string) : "" +:+ t = t.
Proof. reflexivity. Qed.

Lemma length_append (s t : string) :
  String.length (s +:+ t) = String.length s + String.length t.
Proof.
  induction s as [|a s IH]; [reflexivity|].
  rewrite append_cons. simpl. now rewrite IH.
Qed.

Lemma append_nil_r (s : string) : s +:+ "" = s.
Proof.
  induction s as [|a s IH]; [reflexivity|]. now rewrite append_cons, IH.
Qed.

Lemma append_assoc (s t u : string) : (s +:+ t) +:+ u = s +:+ (t +:+ u).
Proof.
  induction s as [|a s IH]; [reflexivity|]. now rewrite !append_cons, IH.
Qed.

Lemma substring_all (s : string) : substring 0 (String.length s) s = s.
Proof. induction s as [|a s IH]; simpl; [reflexivity | now rewrite IH]. Qed.

Lemma substring_append_l (b t : string) :
  substring 0 (String.length b) (b +:+ t) = b.
Proof.
  induction b as [|a b IH].
  - rewrite append_nil_l. now destruct t.
  - rewrite append_cons. simpl. now rewrite IH.
Qed.

Lemma substring_append_r (b t : string) (n m : nat) :
  substring (String.length b + n) m (b +:+ t) = substring n m t.
Proof.
  induction b as [|a b IH]; [reflexivity|]. rewrite append_cons. exact IH.
Qed.

(** [cut_byte] splits [s] around the first occurrence of [c]. *)
Lemma cut_byte_Some (c : ascii) (s b r : string) :
  cut_byte c s = Some (b, r) ->
  s = b +:+ String c r /\ contains_byte c b = false.
Proof.
  revert b r. induction s as [|a s IH]; simpl; intros b r Hc; [discriminate|].
  destruct (Ascii.eqb a c) eqn:Hac.
  - apply Ascii.eqb_eq in Hac. injection Hc as <- <-. now subst.
  - destruct (cut_byte c s) as [[b' r']|]; [|discriminate].
    injection Hc as <- <-. destruct (IH _ _ eq_refl) as [-> Hb].
    split; [reflexivity|]. simpl. now rewrite Hac.
Qed.

Lemma cut_byte_None (c : ascii) (s : string) :
  cut_byte c s = None <-> contains_byte c s = false.
Proof.
  induction s as [|a s IH]; simpl; [tauto|].
  destruct (Ascii.eqb a c); simpl; [split; discriminate|].
  destruct (cut_byte c s) as [[b r]|]; [|tauto].
  split; [discriminate|]. intros Hs. apply IH in Hs. discriminate.
Qed.

Lemma cut_byte_append (c : ascii) (b r : string) :
  contains_byte c b = false -> cut_byte c (b +:+ String c r) = Some (b, r).
Proof.
  induction b as [|a b IH]; intros Hb.
  - rewrite append_nil_l. simpl. now rewrite Ascii.eqb_refl.
  - simpl in Hb. apply orb_false_iff in Hb as [Ha Hb].
    rewrite append_cons. simpl. now rewrite Ha, IH.
Qed.

Lemma Join_cons (l l' : string) (ls : list string) (sep : string) :
  Join (l :: l' :: ls) sep = l +:+ sep +:+ Join (l' :: ls) sep.
Proof. reflexivity. Qed.

(** [Index] with a one-byte separator finds the position [cut_byte]
    cuts at. *)
Lemma Index_byte (c : ascii) (s : string) :
  Index s (String c "") =
  match cut_byte c s with
  | Some (b, _) => Some (String.length b)
  | None => None
  end.
Proof.
  unfold Index. induction s as [|a s IH]; [reflexivity|].
  cbn [index cut_byte String.prefix].
  destruct (ascii_dec c a) as [->|Hne].
  - rewrite Ascii.eqb_refl. now destruct s.
  - assert (Ascii.eqb a c = false) as ->.
    { apply Ascii.eqb_neq. congruence. }
    rewrite IH. now destruct (cut_byte c s) as [[b r]|].
Qed.

(** [Cut] with a one-byte separator is [cut_byte]. *)
Lemma Cut_byte (c : ascii) (s : string) :
  Cut s (String c "") =
  match cut_byte c s with
  | Some (b, r) => (b, r, true)
  | None => (s, "", false)
  end.
Proof.
  unfold Cut. rewrite Index_byte.
  destruct (cut_byte c s) as [[b r]|] eqn:Hc; [|reflexivity].
  apply cut_byte_Some in Hc as [-> _]. unfold slice.
  rewrite Nat.sub_0_r, substring_append_l.
  rewrite substring_append_r, length_append. simpl.
  replace (String.length b + S (String.length r) - (String.length b + 1))
    with (String.length r) by lia.
  now rewrite substring_all.
Qed.

(** The part [Cut] returns before a one-byte separator never contains
    the separator, and [s] is that part, the separator and the rest. *)
Lemma Cut_byte_found (c : ascii) (s before after : string) :
  Cut s (String c "") = (before, after, true) ->
  s = before +:+ String c after /\ contains_byte c before = false.
Proof.
  rewrite Cut_byte. destruct (cut_byte c s) as [[b r]|] eqn:Hc; [|discriminate].
  intros [= <- <-]. now apply cut_byte_Some.
Qed.

Lemma Cut_byte_not_found (c : ascii) (s before after : string) :
  Cut s (String c "") = (before, after, false) ->
  before = s /\ after = "" /\ contains_byte c s = false.
Proof.
  rewrite Cut_byte. destruct (cut_byte c s) as [[b r]|] eqn:Hc; [discriminate|].
  intros [= <- <-]. repeat split. now apply cut_byte_None.
Qed.

(** [split_byte] cuts once and goes on with the rest. *)
Lemma split_byte_cut (c : ascii) (s : string) :
  split_byte c s =
  match cut_byte c s with
  | Some (b, r) => b :: split_byte c r
  | None => [s]
  end.
Proof.
  induction s as [|a s IH]; [reflexivity|]. simpl.
  destruct (Ascii.eqb a c); [reflexivity|]. rewrite IH.
  now destruct (cut_byte c s) as [[b r]|].
Qed.

(** With as many rounds as [s] has bytes, or more, the loop of [Split]
    reaches the end of [s]: it computes [split_byte]. *)
Lemma genSplit_byte (c : ascii) (n : nat) (s : string) :
  String.length s <= n -> genSplit n s (String c "") = split_byte c s.
Proof.
  revert s. induction n as [|n IH]; intros s Hn.
  - destruct s; [reflexivity | simpl in Hn; lia].
  - cbn [genSplit]. rewrite Cut_byte, split_byte_cut.
    destruct (cut_byte c s) as [[b r]|] eqn:Hc; [|reflexivity].
    apply cut_byte_Some in Hc as [-> _].
    rewrite length_append in Hn. simpl in Hn. rewrite IH by lia. reflexivity.
Qed.

Lemma Split_byte (c : ascii) (s : string) :
  Split s (String c "") = split_byte c s.
Proof. apply genSplit_byte. lia. Qed.

Lemma split_byte_nonempty (c : ascii) (s : string) : split_byte c s <> [].
Proof.
  destruct s as [|a s]; simpl; [discriminate|].
  destruct (Ascii.eqb a c); [discriminate|].
  destruct (split_byte c s); discriminate.
Qed.

(** No line of [split_byte c s] contains [c]. *)
Lemma split_byte_lines (c : ascii) (s line : string) :
  In line (split_byte c s) -> contains_byte c line = false.
Proof.
  revert line. induction s as [|a s IH]; simpl; intros line Hin.
  - destruct Hin as [<-|[]]. reflexivity.
  - destruct (Ascii.eqb a c) eqn:Hac.
    + destruct Hin as [<-|Hin]; [reflexivity | now apply IH].
    + destruct (split_byte c s) as [|h t] eqn:Hs.
      * destruct Hin as [<-|[]]. simpl. now rewrite Hac.
      * destruct Hin as [<-|Hin].
        -- simpl. rewrite Hac. apply IH. now left.
        -- apply IH. now right.
Qed.

(** Joining lines that do not contain the separator and splitting the
    result gives the lines back. *)
Lemma split_byte_Join (c : ascii) (ls : list string) :
  ls <> [] ->
  (forall l, In l ls -> contains_byte c l = false) ->
  split_byte c (Join ls (String c "")) = ls.
Proof.
  induction ls as [|l ls IH]; intros Hne Hls; [contradiction|].
  assert (contains_byte c l = false) as Hl by (apply Hls; now left).
  destruct ls as [|l' ls].
  - cbn [Join]. rewrite split_byte_cut.
    apply cut_byte_None in Hl. now rewrite Hl.
  - rewrite Join_cons, append_cons, append_nil_l, split_byte_cut.
    rewrite cut_byte_append by assumption.
    rewrite IH; [reflexivity | discriminate |].
    intros l0 Hl0. apply Hls. now right.
Qed.

(** Splitting and joining again gives the string back. *)
Lemma Join_split_byte (c : ascii) (s : string) :
  Join (split_byte c s) (String c "") = s.
Proof.
  induction s as [|a s IH]; [reflexivity|]. simpl.
  destruct (split_byte c s) as [|h t] eqn:Hs.
  { now apply split_byte_nonempty in Hs. }
  destruct (Ascii.eqb a c) eqn:Hac.
  - apply Ascii.eqb_eq in Hac. subst a.
    rewrite Join_cons, IH. reflexivity.
  - destruct t as [|h' t].
    + cbn [Join] in *. now rewrite IH.
    + rewrite Join_cons in *. now rewrite append_cons, IH.
Qed.

Lemma HasPrefix_append (p t : string) : HasPrefix (p +:+ t) p = true.
Proof.
  unfold HasPrefix. induction p as [|a p IH].
  - rewrite append_nil_l. now destruct t.
  - rewrite append_cons. simpl. now destruct (ascii_dec a a).
Qed.

End strings_facts.

(* ===================================================================== *)
(** * UTF-8: decoding what was encoded *)
(* ===================================================================== *)

Module utf8_facts.
Import utf8.
#[local] Open Scope Z_scope.

Lemma byte_of_range (a : ascii) : 0 <= byte_of a < 256.
Proof.
  unfold byte_of. pose proof (N_ascii_bounded a) as Hb. lia.
Qed.

Lemma byte_of_to_byte (v : Z) : 0 <= v < 256 -> byte_of (to_byte v) = v.
Proof.
  intros Hv. unfold byte_of, to_byte.
  rewrite Z.mod_small by lia.
  rewrite N_ascii_embedding by lia. lia.
Qed.

(** A value below [2 ^ n] fills the [n] low bits left free by a
    multiple of [2 ^ n]. *)
Lemma lor_low (k y n : Z) :
  0 <= n -> 0 <= y < 2 ^ n -> Z.lor (k * 2 ^ n) y = k * 2 ^ n + y.
Proof.
  intros Hn Hy.
  pose proof (Z.add_lor_land (k * 2 ^ n) y) as Hadd.
  assert (Z.land (k * 2 ^ n) y = 0) as Hland; [|lia].
  apply Z.bits_inj'. intros i Hi.
  rewrite Z.land_spec, Z.bits_0.
  destruct (Z.lt_ge_cases i n) as [Hlt|Hge].
  - rewrite Z.mul_pow2_bits_low by lia. reflexivity.
  - assert (Z.testbit y i = false) as ->; [|apply andb_false_r].
    destruct (Z.eq_dec y 0) as [->|Hy0]; [apply Z.bits_0|].
    apply Z.bits_above_log2; [lia|].
    apply Z.log2_lt_pow2; [lia|].
    apply Z.lt_le_trans with (2 ^ n); [lia|].
    apply Z.pow_le_mono_r; lia.
Qed.

Lemma land_low (k y n : Z) :
  0 <= n -> 0 <= y < 2 ^ n -> Z.land (k * 2 ^ n + y) (Z.ones n) = y.
Proof.
  intros Hn Hy. rewrite Z.land_ones by assumption.
  rewrite Z.add_comm, Z.mod_add by lia. apply Z.mod_small. lia.
Qed.

Ltac decide_cmp :=
  repeat match goal with
    | |- context [Z.ltb ?a ?b] =>
        destruct (Z.ltb_spec a b); try lia; cbn [orb andb]; cbv iota
    | |- context [Z.eqb ?a ?b] =>
        destruct (Z.eqb_spec a b); try lia; cbn [orb andb]; cbv iota
    | |- context [Z.leb ?a ?b] =>
        destruct (Z.leb_spec a b); try lia; cbn [orb andb]; cbv iota
    end.

Lemma decode1 (r : Z) (rest : string) :
  0 <= r <= 0x7F ->
  DecodeRuneInString (String (to_byte r) rest) = (r, 1%nat).
Proof.
  intros Hr. unfold DecodeRuneInString.
  rewrite byte_of_to_byte by lia. unfold first. decide_cmp. reflexivity.
Qed.

Lemma cont_bits (m : Z) :
  0 <= m <= 63 -> Z.land (0x80 + m) maskx = m.
Proof.
  intros Hm. change maskx with (Z.ones 6).
  replace (0x80 + m) with (2 * 2 ^ 6 + m) by lia.
  apply land_low; lia.
Qed.

Lemma in_range (lo hi x : Z) :
  lo <= x <= hi -> (x <? lo) || (hi <? x) = false.
Proof. intros Hx. apply orb_false_iff. split; apply Z.ltb_ge; lia. Qed.

Lemma first_cases (b : Z) :
  (0xC2 <= b <= 0xDF -> first b = Lead 2 locb hicb) /\
  (b = 0xE0 -> first b = Lead 3 0xA0 hicb) /\
  (0xE1 <= b <= 0xEC \/ 0xEE <= b <= 0xEF -> first b = Lead 3 locb hicb) /\
  (b = 0xED -> first b = Lead 3 locb 0x9F) /\
  (b = 0xF0 -> first b = Lead 4 0x90 hicb) /\
  (0xF1 <= b <= 0xF3 -> first b = Lead 4 locb hicb) /\
  (b = 0xF4 -> first b = Lead 4 locb 0x8F).
Proof. unfold first. repeat split; intros Hb; decide_cmp; reflexivity. Qed.

Ltac step_decode :=
  cbn [String.length Nat.ltb Nat.leb at_ String.get];
  rewrite ?byte_of_to_byte by lia.

Lemma decode2 (q m : Z) (rest : string) :
  2 <= q <= 31 -> 0 <= m <= 63 ->
  DecodeRuneInString
    (String (to_byte (0xC0 + q)) (String (to_byte (0x80 + m)) rest))
  = (q * 64 + m, 2%nat).
Proof.
  intros Hq Hm. unfold DecodeRuneInString.
  rewrite byte_of_to_byte by lia.
  rewrite (proj1 (first_cases _)) by lia. step_decode.
  rewrite in_range by (unfold locb, hicb; lia).
  f_equal. rewrite cont_bits by lia.
  change mask2 with (Z.ones 5).
  replace (0xC0 + q) with (6 * 2 ^ 5 + q) by lia.
  rewrite land_low by lia. rewrite Z.shiftl_mul_pow2 by lia.
  rewrite lor_low; lia.
Qed.

Lemma decode3 (a b c : Z) (rest : string) :
  0 <= a <= 15 -> 0 <= b <= 63 -> 0 <= c <= 63 ->
  (a = 0 -> 0x20 <= b) ->
  (a = 13 -> b <= 0x1F) ->
  DecodeRuneInString
    (String (to_byte (0xE0 + a))
       (String (to_byte (0x80 + b)) (String (to_byte (0x80 + c)) rest)))
  = (a * 4096 + b * 64 + c, 3%nat).
Proof.
  intros Ha Hb Hc Hlo Hhi. unfold DecodeRuneInString.
  rewrite byte_of_to_byte by lia.
  assert (exists lo hi, first (0xE0 + a) = Lead 3 lo hi /\
                        lo <= 0x80 + b <= hi) as (lo & hi & -> & Hr).
  { destruct (first_cases (0xE0 + a)) as (_ & H0 & H3 & HD & _).
    destruct (Z.eq_dec a 0) as [->|Hna].
    - eexists _, _. split; [apply H0; lia|]. unfold hicb. lia.
    - destruct (Z.eq_dec a 13) as [->|Hnd].
      + eexists _, _. split; [apply HD; lia|]. unfold locb. lia.
      + eexists _, _. split; [apply H3; lia|]. unfold locb, hicb. lia. }
  step_decode. rewrite in_range by lia.
  rewrite in_range by (unfold locb, hicb; lia).
  f_equal. rewrite !cont_bits by lia.
  change mask3 with (Z.ones 4).
  replace (0xE0 + a) with (14 * 2 ^ 4 + a) by lia.
  rewrite land_low by lia. rewrite !Z.shiftl_mul_pow2 by lia.
  rewrite lor_low by lia.
  replace (a * 2 ^ 12 + b * 2 ^ 6) with ((a * 64 + b) * 2 ^ 6) by lia.
  rewrite lor_low; lia.
Qed.

Lemma decode4 (a b c d : Z) (rest : string) :
  0 <= a <= 4 -> 0 <= b <= 63 -> 0 <= c <= 63 -> 0 <= d <= 63 ->
  (a = 0 -> 0x10 <= b) ->
  (a = 4 -> b <= 0x0F) ->
  DecodeRuneInString
    (String (to_byte (0xF0 + a))
       (String (to_byte (0x80 + b))
          (String (to_byte (0x80 + c)) (String (to_byte (0x80 + d)) rest))))
  = (a * 262144 + b * 4096 + c * 64 + d, 4%nat).
Proof.
  intros Ha Hb Hc Hd Hlo Hhi. unfold DecodeRuneInString.
  rewrite byte_of_to_byte by lia.
  assert (exists lo hi, first (0xF0 + a) = Lead 4 lo hi /\
                        lo <= 0x80 + b <= hi) as (lo & hi & -> & Hr).
  { destruct (first_cases (0xF0 + a)) as (_ & _ & _ & _ & H0 & H1 & H4).
    destruct (Z.eq_dec a 0) as [->|Hna].
    - eexists _, _. split; [apply H0; lia|]. unfold hicb. lia.
    - destruct (Z.eq_dec a 4) as [->|Hnd].
      + eexists _, _. split; [apply H4; lia|]. unfold locb. lia.
      + eexists _, _. split; [apply H1; lia|]. unfold locb, hicb. lia. }
  step_decode. rewrite in_range by lia.
  rewrite !in_range by (unfold locb, hicb; lia).
  f_equal. rewrite !cont_bits by lia.
  change mask4 with (Z.ones 3).
  replace (0xF0 + a) with (30 * 2 ^ 3 + a) by lia.
  rewrite land_low by lia. rewrite !Z.shiftl_mul_pow2 by lia.
  rewrite lor_low by lia.
  replace (a * 2 ^ 18 + b * 2 ^ 12) with ((a * 64 + b) * 2 ^ 12) by lia.
  rewrite lor_low by lia.
  replace ((a * 64 + b) * 2 ^ 12 + c * 2 ^ 6)
    with (((a * 64 + b) * 64 + c) * 2 ^ 6) by lia.
  rewrite lor_low; lia.
Qed.

(** The bytes [EncodeRune] writes, by size of the rune. *)

Lemma lor_tx (y : Z) : 0 <= y <= 63 -> Z.lor tx y = 0x80 + y.
Proof.
  intros Hy. change tx with (2 * 2 ^ 6). rewrite lor_low; lia.
Qed.

Lemma low_bits (x : Z) : Z.land x maskx = x mod 64.
Proof. change maskx with (Z.ones 6). now rewrite Z.land_ones by lia. Qed.

Lemma lor_t2 (y : Z) : 0 <= y <= 31 -> Z.lor t2 y = 0xC0 + y.
Proof. intros Hy. change t2 with (3 * 2 ^ 6). rewrite lor_low; lia. Qed.

Lemma lor_t3 (y : Z) : 0 <= y <= 15 -> Z.lor t3 y = 0xE0 + y.
Proof. intros Hy. change t3 with (14 * 2 ^ 4). rewrite lor_low; lia. Qed.

Lemma lor_t4 (y : Z) : 0 <= y <= 7 -> Z.lor t4 y = 0xF0 + y.
Proof. intros Hy. change t4 with (30 * 2 ^ 3). rewrite lor_low; lia. Qed.

Ltac dlia := Z.div_mod_to_equations; lia.

Ltac shifts_to_div :=
  rewrite !Z.shiftr_div_pow2, ?low_bits by lia;
  change (2 ^ 6) with 64; change (2 ^ 12) with 4096;
  change (2 ^ 18) with 262144.

Lemma encode3_bytes (r : Z) :
  0x800 <= r <= 0xFFFF ->
  encode3 r =
  String (to_byte (0xE0 + r / 4096))
    (String (to_byte (0x80 + (r / 64) mod 64))
       (String (to_byte (0x80 + r mod 64)) "")).
Proof.
  intros Hr. unfold encode3. shifts_to_div.
  now rewrite !lor_tx, lor_t3 by dlia.
Qed.

Lemma EncodeRune_1 (r : Z) :
  0 <= r <= 0x7F -> EncodeRune r = String (to_byte r) "".
Proof.
  intros Hr. unfold EncodeRune, uint32. rewrite Z.mod_small by lia.
  unfold MaxRune, surrogateMin, surrogateMax. decide_cmp; reflexivity.
Qed.

Lemma EncodeRune_2 (r : Z) :
  0x80 <= r <= 0x7FF ->
  EncodeRune r =
  String (to_byte (0xC0 + r / 64)) (String (to_byte (0x80 + r mod 64)) "").
Proof.
  intros Hr. unfold EncodeRune, uint32. rewrite Z.mod_small by lia.
  unfold MaxRune, surrogateMin, surrogateMax. decide_cmp. shifts_to_div.
  now rewrite lor_tx, lor_t2 by dlia.
Qed.

Lemma EncodeRune_3 (r : Z) :
  0x800 <= r <= 0xFFFF -> ~ (surrogateMin <= r <= surrogateMax) ->
  EncodeRune r = encode3 r.
Proof.
  intros Hr Hs. unfold EncodeRune, uint32. rewrite Z.mod_small by lia.
  unfold MaxRune, surrogateMin, surrogateMax in *.
  decide_cmp; reflexivity.
Qed.

Lemma EncodeRune_4 (r : Z) :
  0x10000 <= r <= 0x10FFFF ->
  EncodeRune r =
  String (to_byte (0xF0 + r / 262144))
    (String (to_byte (0x80 + (r / 4096) mod 64))
       (String (to_byte (0x80 + (r / 64) mod 64))
          (String (to_byte (0x80 + r mod 64)) ""))).
Proof.
  intros Hr. unfold EncodeRune, uint32. rewrite Z.mod_small by lia.
  unfold MaxRune, surrogateMin, surrogateMax in *.
  decide_cmp. cbn [orb andb]. shifts_to_div.
  now rewrite !lor_tx, lor_t4 by dlia.
Qed.

Lemma EncodeRune_error (r : Z) :
  - 2 ^ 31 <= r < 2 ^ 31 ->
  r < 0 \/ MaxRune < r \/ surrogateMin <= r <= surrogateMax ->
  EncodeRune r = encode3 RuneError.
Proof.
  intros Hr Hbad. unfold EncodeRune, uint32.
  unfold MaxRune, surrogateMin, surrogateMax in *.
  change (2 ^ 31) with 2147483648 in Hr.
  change (2 ^ 32) with 4294967296.
  destruct (Z.lt_ge_cases r 0) as [Hneg|Hpos].
  - assert (r mod 4294967296 = r + 4294967296) as -> by dlia.
    decide_cmp; reflexivity.
  - rewrite Z.mod_small by lia. decide_cmp; reflexivity.
Qed.

Lemma drop_bytes_append (e rest : string) :
  drop_bytes (String.length e) (e +:+ rest) = rest.
Proof.
  induction e as [|a e IH]; [reflexivity|].
  rewrite strings_facts.append_cons. exact IH.
Qed.

Lemma scalar_or_error_scalar (r : Z) :
  0 <= r <= MaxRune -> ~ (surrogateMin <= r <= surrogateMax) ->
  scalar_or_error r = r.
Proof.
  unfold scalar_or_error, MaxRune, surrogateMin, surrogateMax.
  intros Hr Hs. decide_cmp; reflexivity.
Qed.

Lemma scalar_or_error_other (r : Z) :
  r < 0 \/ MaxRune < r \/ surrogateMin <= r <= surrogateMax ->
  scalar_or_error r = RuneError.
Proof.
  unfold scalar_or_error, MaxRune, surrogateMin, surrogateMax.
  intros Hr. decide_cmp; reflexivity.
Qed.

Ltac encoded_bytes :=
  rewrite !strings_facts.append_cons, strings_facts.append_nil_l;
  split; [|cbn [String.length]; lia].

(** What is no scalar value is written as [RuneError] and read back as
    such. *)
Lemma decode_encode_other (r : Z) (rest : string) :
  is_int32 r ->
  r < 0 \/ MaxRune < r \/ surrogateMin <= r <= surrogateMax ->
  DecodeRuneInString (EncodeRune r +:+ rest)
  = (scalar_or_error r, String.length (EncodeRune r)) /\
  (1 <= String.length (EncodeRune r))%nat.
Proof.
  intros Hr Hbad.
  rewrite scalar_or_error_other, EncodeRune_error by assumption.
  rewrite encode3_bytes by (unfold RuneError; lia). encoded_bytes.
  now rewrite decode3 by (vm_compute; intuition congruence).
Qed.

(** Decoding what [EncodeRune] wrote gives the rune back, or
    [RuneError] for a rune that is no scalar value, and consumes
    exactly the bytes written. *)
Lemma decode_encode (r : Z) (rest : string) :
  is_int32 r ->
  DecodeRuneInString (EncodeRune r +:+ rest)
  = (scalar_or_error r, String.length (EncodeRune r)) /\
  (1 <= String.length (EncodeRune r))%nat.
Proof.
  intros Hr.
  destruct (Z_lt_le_dec r 0) as [Hneg|Hpos];
    [apply decode_encode_other; auto|].
  destruct (Z_le_gt_dec r MaxRune) as [Hmax|Hmax];
    [|apply decode_encode_other; auto; lia].
  destruct (Z_lt_le_dec r surrogateMin) as [Hlo|Hlo].
  - (* below the surrogates: one, two or three bytes *)
    rewrite scalar_or_error_scalar by lia.
    unfold MaxRune, surrogateMin, surrogateMax in *.
    destruct (Z_le_gt_dec r 0x7F) as [H1|H1];
      [|destruct (Z_le_gt_dec r 0x7FF) as [H2|H2]].
    + rewrite EncodeRune_1 by lia. encoded_bytes. now rewrite decode1 by lia.
    + rewrite EncodeRune_2 by lia. encoded_bytes.
      rewrite decode2 by dlia. cbn [String.length]. f_equal. dlia.
    + rewrite EncodeRune_3, encode3_bytes
        by (unfold surrogateMin, surrogateMax; lia).
      encoded_bytes.
      rewrite decode3 by dlia. cbn [String.length]. f_equal. dlia.
  - destruct (Z_le_gt_dec r surrogateMax) as [Hhi|Hhi];
      [apply decode_encode_other; auto|].
    (* above the surrogates: three or four bytes *)
    rewrite scalar_or_error_scalar by lia.
    unfold MaxRune, surrogateMin, surrogateMax in *.
    destruct (Z_le_gt_dec r 0xFFFF) as [H3|H3].
    + rewrite EncodeRune_3, encode3_bytes
        by (unfold surrogateMin, surrogateMax; lia).
      encoded_bytes.
      rewrite decode3 by dlia. cbn [String.length]. f_equal. dlia.
    + rewrite EncodeRune_4 by (unfold MaxRune; lia). encoded_bytes.
      rewrite decode4 by dlia. cbn [String.length]. f_equal. dlia.
Qed.

Lemma first_sz (b : Z) (sz : nat) (lo hi : Z) :
  first b = Lead sz lo hi -> sz = 2%nat \/ sz = 3%nat \/ sz = 4%nat.
Proof.
  unfold first.
  repeat match goal with
         | |- context [if ?c then _ else _] => destruct c
         end; intros Heq; inversion Heq; auto.
Qed.

(** A rune of a non-empty string is at least one byte wide and never
    wider than the string. *)
Lemma DecodeRune_width (s : string) :
  s <> "" ->
  (1 <= (DecodeRuneInString s).2 <= String.length s)%nat.
Proof.
  destruct s as [|a s]; [congruence|]. intros _.
  unfold DecodeRuneInString.
  destruct (first (byte_of a)) as [| |sz lo hi] eqn:Hf;
    [simpl; lia..|].
  destruct (Nat.ltb_spec (String.length (String a s)) sz) as [Hlt|Hge];
    [simpl; lia|].
  apply first_sz in Hf as [Hsz|[Hsz|Hsz]]; subst sz; cbn [Nat.leb];
    repeat match goal with
           | |- context [if ?c then _ else _] => destruct c
           end; simpl in *; lia.
Qed.

Lemma length_drop_bytes (n : nat) (s : string) :
  String.length (drop_bytes n s) = (String.length s - n)%nat.
Proof.
  revert s. induction n as [|n IH]; intros s; simpl; [lia|].
  destruct s as [|a s]; simpl; [reflexivity | apply IH].
Qed.

Lemma decode_fuel_eq (n m : nat) (s : string) :
  (String.length s <= n)%nat -> (String.length s <= m)%nat ->
  decode n s = decode m s.
Proof.
  revert m s. induction n as [|n IH]; intros m s Hn Hm.
  - destruct s; [|simpl in *; lia]. now destruct m.
  - destruct s as [|a s]; [now destruct m|].
    destruct m as [|m]; [simpl in *; lia|].
    cbn [decode].
    pose proof (DecodeRune_width (String a s) ltac:(discriminate)) as Hw.
    destruct (DecodeRuneInString (String a s)) as [r w]. simpl in Hw.
    f_equal. apply IH; rewrite length_drop_bytes; simpl in *; lia.
Qed.

(** The rounds [runes] allows are enough: with more of them the
    result is the same. *)
Lemma decode_fuel (n : nat) (s : string) :
  (String.length s <= n)%nat -> decode n s = runes s.
Proof. intros Hn. unfold runes. apply decode_fuel_eq; lia. Qed.

Lemma runes_encoded (r : Z) (rest : string) :
  is_int32 r ->
  runes (EncodeRune r +:+ rest) = scalar_or_error r :: runes rest.
Proof.
  intros Hr. destruct (decode_encode r rest Hr) as [Hdec Hlen].
  unfold runes at 1. rewrite strings_facts.length_append.
  destruct (String.length (EncodeRune r)) as [|k] eqn:Hk; [lia|].
  cbn [Nat.add decode].
  destruct (EncodeRune r +:+ rest) as [|a t] eqn:Ht.
  { apply (f_equal String.length) in Ht.
    rewrite strings_facts.length_append in Ht. simpl in Ht. lia. }
  rewrite Hdec. f_equal.
  rewrite <- Ht, <- Hk, drop_bytes_append.
  apply decode_fuel. lia.
Qed.

(** Encoding a rune slice and decoding the string gives the slice
    back, with [RuneError] in place of what is no scalar value. *)
Lemma runes_string_of_runes (rs : list rune) :
  Forall is_int32 rs ->
  runes (string_of_runes rs) = map scalar_or_error rs.
Proof.
  induction 1 as [|r rs Hr Hrs IH]; [reflexivity|].
  cbn [string_of_runes map]. now rewrite runes_encoded, IH.
Qed.

(** The string of a rune slice has as many runes as the slice. *)
Lemma RuneCount_string_of_runes (rs : list rune) :
  Forall is_int32 rs ->
  RuneCountInString (string_of_runes rs) = length rs.
Proof.
  intros Hrs. unfold RuneCountInString.
  now rewrite runes_string_of_runes, length_map.
Qed.

Lemma lor_bound (x y : Z) :
  0 <= x -> 0 <= y -> 0 <= Z.lor x y <= x + y.
Proof.
  intros Hx Hy. pose proof (Z.add_lor_land x y) as Hadd.
  assert (0 <= Z.lor x y) by (apply Z.lor_nonneg; lia).
  assert (0 <= Z.land x y) by (apply Z.land_nonneg; lia). lia.
Qed.

Lemma masked_shift (x m k : Z) :
  0 <= m -> 0 <= k ->
  0 <= Z.shiftl (Z.land x (Z.ones m)) k < 2 ^ (m + k).
Proof.
  intros Hm Hk. rewrite Z.land_ones, Z.shiftl_mul_pow2 by lia.
  pose proof (Z.mod_pos_bound x (2 ^ m) ltac:(lia)) as Hb.
  rewrite Z.pow_add_r by lia.
  assert (0 < 2 ^ k) by lia. nia.
Qed.

(** Every decoded rune fits an [int32]. *)
Lemma DecodeRune_int32 (s : string) : is_int32 (DecodeRuneInString s).1.
Proof.
  unfold is_int32. change (2 ^ 31) with 2147483648.
  assert (0 <= (DecodeRuneInString s).1 < 4194304) as Hb; [|lia].
  unfold DecodeRuneInString.
  destruct s as [|a s]; [unfold RuneError; simpl; lia|].
  pose proof (byte_of_range a) as Ha.
  destruct (first (byte_of a)) as [| |sz lo hi];
    [simpl; lia | unfold RuneError; simpl; lia |].
  pose proof (masked_shift (byte_of a) 5 6 ltac:(lia) ltac:(lia)) as A2.
  pose proof (masked_shift (byte_of a) 4 12 ltac:(lia) ltac:(lia)) as A3.
  pose proof (masked_shift (byte_of a) 3 18 ltac:(lia) ltac:(lia)) as A4.
  pose proof (masked_shift (at_ (String a s) 1) 6 12 ltac:(lia) ltac:(lia)) as B12.
  pose proof (masked_shift (at_ (String a s) 1) 6 6 ltac:(lia) ltac:(lia)) as B6.
  pose proof (masked_shift (at_ (String a s) 2) 6 6 ltac:(lia) ltac:(lia)) as C6.
  pose proof (masked_shift (at_ (String a s) 1) 6 0 ltac:(lia) ltac:(lia)) as B0.
  pose proof (masked_shift (at_ (String a s) 2) 6 0 ltac:(lia) ltac:(lia)) as C0.
  pose proof (masked_shift (at_ (String a s) 3) 6 0 ltac:(lia) ltac:(lia)) as D0.
  rewrite Z.shiftl_0_r in B0, C0, D0.
  change (Z.ones 5) with mask2 in *. change (Z.ones 4) with mask3 in *.
  change (Z.ones 3) with mask4 in *. change (Z.ones 6) with maskx in *.
  change (2 ^ (5 + 6)) with 2048 in *. change (2 ^ (4 + 12)) with 65536 in *.
  change (2 ^ (3 + 18)) with 2097152 in *.
  change (2 ^ (6 + 12)) with 262144 in *. change (2 ^ (6 + 6)) with 4096 in *.
  change (2 ^ (6 + 0)) with 64 in *.
  repeat match goal with
         | |- context [if ?c then _ else _] => destruct c
         end; cbn [fst];
    match goal with
    | |- _ <= RuneError < _ => unfold RuneError; lia
    | |- context [mask2] =>
        pose proof (lor_bound _ _ (proj1 A2) (proj1 B0)); lia
    | |- context [mask3] =>
        pose proof (lor_bound _ _ (proj1 A3) (proj1 B6)) as L1;
        pose proof (lor_bound _ _ (proj1 L1) (proj1 C0)); lia
    | |- context [mask4] =>
        pose proof (lor_bound _ _ (proj1 A4) (proj1 B12)) as L1;
        pose proof (lor_bound _ _ (proj1 L1) (proj1 C6)) as L2;
        pose proof (lor_bound _ _ (proj1 L2) (proj1 D0)); lia
    end.
Qed.

Lemma decode_int32 (n : nat) (s : string) : Forall is_int32 (decode n s).
Proof.
  revert s. induction n as [|n IH]; intros s; [constructor|].
  cbn [decode]. destruct s as [|a s]; [constructor|].
  pose proof (DecodeRune_int32 (String a s)) as Hr.
  destruct (DecodeRuneInString (String a s)) as [r w].
  constructor; [exact Hr | apply IH].
Qed.

Lemma runes_int32 (s : string) : Forall is_int32 (runes s).
Proof. apply decode_int32. Qed.

End utf8_facts.

(* ===================================================================== *)
(** * The ingestion server *)
(* ===================================================================== *)

Module ingest.
Import telemetry telemetrygodev.

Lemma range_err_Some {A} (xs : list A) (body : A -> option error) :
  range_err xs body <> None <-> exists x, x ∈ xs /\ body x <> None.
Proof.
  induction xs as [|x xs IH]; simpl.
  - split; [congruence|]. intros (x & Hx & _). now apply elem_of_nil in Hx.
  - destruct (body x) as [e|] eqn:Hb.
    + split; [|congruence]. intros _. exists x. split; [left|congruence].
    + rewrite IH. split.
      * intros (y & Hy & Hne). exists y. split; [now right | assumption].
      * intros (y & Hy & Hne). apply elem_of_cons in Hy as [->|Hy];
          [congruence|]. now exists y.
Qed.

Lemma elem_of_keys (m : gmap string Z) (k : string) : k ∈ keys m <-> k ∈ dom m.
Proof.
  unfold keys. rewrite elem_of_dom, list_elem_of_fmap. split.
  - intros ([k' v] & -> & Hkv). apply elem_of_map_to_list in Hkv. now exists v.
  - intros [v Hv]. exists (k, v). split; [reflexivity|].
    now apply elem_of_map_to_list.
Qed.

(** The prefix [validate] cuts off a stack key is the key's first line. *)
Lemma Cut_first_line (s : string) : (strings.Cut s nl).1.1 = first_line s.
Proof.
  unfold nl. rewrite strings_facts.Cut_byte.
  induction s as [|a s IH]; [reflexivity|]. simpl.
  destruct (Ascii.eqb a "010"); [reflexivity|].
  destruct (strings.cut_byte "010" s) as [[b r]|]; simpl in *; congruence.
Qed.

Section validate.
Context `{GoLib}.

(** ** C1 *)

(** C1. [validate r cfg] returns an error exactly when one of the
    reasons the spec lists holds: the week does not parse as a date,
    the config is not a valid semantic version, [X] is zero, a program
    report names a GOARCH, GOOS, Go version, program or
    (program, version) pair outside the allow-list, a counter key is
    not a configured counter of its program, or the first line of a
    stack key is not a configured stack of its program.  Otherwise
    it returns nil. *)
Theorem validate_error_iff (r : Report) (cfg : tconfig.Config) :
  (validate r cfg <> None <-> spec_rejects r cfg) /\
  (validate r cfg = None <-> ~ spec_rejects r cfg).
Proof.
  assert (validate r cfg <> None <-> spec_rejects r cfg) as Hiff.
  { unfold validate, spec_rejects.
    destruct (time_Parse "2006-01-02" (Week r)) as [t|e] eqn:Hweek.
    2:{ split; [|congruence]. intros _. left. now exists e. }
    destruct (semver_IsValid (Config r)) eqn:Hcfg; simpl.
    2:{ split; [|congruence]. intros _. right. now left. }
    destruct (PrimFloat.eqb (X r) 0) eqn:HX.
    { split; [|congruence]. intros _. right. right. now left. }
    rewrite range_err_Some.
    split.
    - intros (p & Hp & Hbody).
      do 3 right.
      destruct (negb (tconfig.HasGOARCH cfg (GOARCH p)) || _ || _ || _ || _)
        eqn:Hbuild.
      + left. exists p. split; [assumption|].
        unfold tconfig.HasGOARCH, tconfig.HasGOOS, tconfig.HasGoVersion,
          tconfig.HasProgram, tconfig.HasVersion in Hbuild.
        repeat (apply orb_true_iff in Hbuild as [Hbuild|Hbuild]);
          apply negb_true_iff, bool_decide_eq_false in Hbuild; tauto.
      + right.
        destruct (range_err (keys (Counters p)) _) as [e|] eqn:Hcount.
        * left.
          assert (range_err (keys (Counters p))
                    (fun c => if negb (tconfig.HasCounter cfg (Program p) c)
                              then Some ("unknown counter " +:+ c) else None)
                  <> None) as Hc by (rewrite Hcount; congruence).
          apply range_err_Some in Hc as (c & Hin & Hc).
          exists p, c. split; [assumption|].
          split; [now apply elem_of_keys|].
          unfold tconfig.HasCounter in Hc.
          destruct (bool_decide _) eqn:Hd; simpl in Hc; [congruence|].
          now apply bool_decide_eq_false in Hd.
        * right. apply range_err_Some in Hbody as (s & Hin & Hs).
          exists p, s. split; [assumption|].
          split; [now apply elem_of_keys|].
          rewrite <- Cut_first_line.
          destruct (strings.Cut s nl) as [[prefix after] found]. simpl.
          unfold tconfig.HasStack in Hs.
          destruct (bool_decide _) eqn:Hd; simpl in Hs; [congruence|].
          now apply bool_decide_eq_false in Hd.
    - intros [(e & He)|[Hc|[Hx|Hprog]]]; [congruence..|].
      destruct Hprog as [(p & Hp & Hbuild)|[(p & c & Hp & Hc & Hno)|(p & s & Hp & Hs & Hno)]];
        exists p; (split; [assumption|]).
      + assert (negb (tconfig.HasGOARCH cfg (GOARCH p))
                || negb (tconfig.HasGOOS cfg (GOOS p))
                || negb (tconfig.HasGoVersion cfg (GoVersion p))
                || negb (tconfig.HasProgram cfg (Program p))
                || negb (tconfig.HasVersion cfg (Program p) (Version p)) = true)
          as ->; [|congruence].
        unfold tconfig.HasGOARCH, tconfig.HasGOOS, tconfig.HasGoVersion,
          tconfig.HasProgram, tconfig.HasVersion.
        rewrite !orb_true_iff, !negb_true_iff, !bool_decide_eq_false. tauto.
      + destruct (negb (tconfig.HasGOARCH cfg (GOARCH p)) || _ || _ || _ || _);
          [congruence|].
        assert (range_err (keys (Counters p))
                  (fun c => if negb (tconfig.HasCounter cfg (Program p) c)
                            then Some ("unknown counter " +:+ c) else None)
                <> None) as Hne.
        { apply range_err_Some. exists c. split; [now apply elem_of_keys|].
          unfold tconfig.HasCounter.
          rewrite (bool_decide_eq_false_2 _ Hno). simpl. congruence. }
        destruct (range_err (keys (Counters p)) _); congruence.
      + destruct (negb (tconfig.HasGOARCH cfg (GOARCH p)) || _ || _ || _ || _);
          [congruence|].
        destruct (range_err (keys (Counters p)) _); [congruence|].
        apply range_err_Some. exists s. split; [now apply elem_of_keys|].
        rewrite <- Cut_first_line in Hno.
        destruct (strings.Cut s nl) as [[prefix after] found]. simpl in Hno.
        unfold tconfig.HasStack.
        rewrite (bool_decide_eq_false_2 _ Hno). simpl. congruence. }
  split; [exact Hiff|].
  rewrite <- Hiff. destruct (validate r cfg) as [e|]; split; intros Hn.
  - discriminate.
  - exfalso. apply Hn. discriminate.
  - intros Hn'. now apply Hn'.
  - reflexivity.
Qed.

End validate.

Section handler.
Context `{GoLib}.

(** A request that is not a POST is answered with 405 and changes
    nothing. *)
Lemma handleUpload_not_POST ucfg io r s :
  http.Method r <> "POST" ->
  handleUpload ucfg io r s =
  (content.Status http.StatusMethodNotAllowed, s).
Proof.
  intros Hm. unfold handleUpload.
  destruct (String.eqb_spec (http.Method r) "POST"); [contradiction|].
  reflexivity.
Qed.

(** A POST whose body does not decode. *)
Lemma handleUpload_bad_JSON ucfg io r s err :
  http.Method r = "POST" ->
  json_Decode (http.Body r) = inr err ->
  handleUpload ucfg io r s =
  (content.Error err http.StatusBadRequest, warn "invalid JSON payload" err s).
Proof.
  intros Hm Hd. unfold handleUpload. rewrite Hm, Hd. reflexivity.
Qed.

(** A POST whose report does not validate. *)
Lemma handleUpload_invalid ucfg io r s report err :
  http.Method r = "POST" ->
  json_Decode (http.Body r) = inl report ->
  validate report ucfg = Some err ->
  handleUpload ucfg io r s =
  (content.Error err http.StatusBadRequest, warn "invalid report" err s).
Proof.
  intros Hm Hd Hv. unfold handleUpload. rewrite Hm, Hd, Hv. reflexivity.
Qed.

(** A POST whose report validates, when marshalling and the storage
    backend succeed: the object is written and the answer is 200. *)
Lemma handleUpload_stored ucfg io r s report data :
  http.Method r = "POST" ->
  json_Decode (http.Body r) = inl report ->
  validate report ucfg = None ->
  json_Marshal report = inl data ->
  storage.NewWriter_err io = None ->
  storage.Write_err io = None ->
  storage.Close_err io = None ->
  handleUpload ucfg io r s =
  (content.Status http.StatusOK,
   {| buckets := storage.set_Upload (buckets s)
                   (<[object_name report := data +:+ nl]>
                      (storage.Upload (buckets s)));
      logged := logged s |}).
Proof.
  intros Hm Hd Hv Hj Hn Hw Hc. unfold handleUpload. rewrite Hm, Hd, Hv.
  unfold storage.NewWriter, Encode. rewrite Hj, Hn.
  unfold storage.Write. rewrite Hw. unfold deferred_Close, storage.Close.
  simpl. rewrite Hc. reflexivity.
Qed.

(** Whatever the storage backend does, an answer of 200 means that
    the body decoded to a report, that the report validated, and that
    the upload bucket gained exactly the object named after the
    report, holding the marshalled report and a newline. *)
Lemma handleUpload_accepted ucfg io r s s' :
  handleUpload ucfg io r s = (content.Status http.StatusOK, s') ->
  exists report data,
    http.Method r = "POST" /\
    json_Decode (http.Body r) = inl report /\
    validate report ucfg = None /\
    json_Marshal report = inl data /\
    s' = {| buckets := storage.set_Upload (buckets s)
                         (<[object_name report := data +:+ nl]>
                            (storage.Upload (buckets s)));
            logged := logged s |}.
Proof.
  unfold handleUpload.
  destruct (String.eqb_spec (http.Method r) "POST") as [Hm|Hm];
    [|intros [= Hcode _]; discriminate].
  destruct (json_Decode (http.Body r)) as [report|err] eqn:Hd;
    [|intros [=]].
  destruct (validate report ucfg) as [err|] eqn:Hv; [intros [=]|].
  unfold deferred_Close.
  unfold storage.NewWriter, Encode, storage.Write, storage.Close.
  destruct (storage.NewWriter_err io) as [e|]; [intros [=]|].
  destruct (json_Marshal report) as [data|e] eqn:Hj; simpl.
  2:{ destruct (storage.Close_err io); intros [=]. }
  destruct (storage.Write_err io) as [e|]; simpl; [intros [=]|].
  destruct (storage.Close_err io) as [e|]; simpl; [intros [=]|].
  intros [= <-]. exists report, data. repeat split; assumption.
Qed.

Lemma length_truncate (errs : list utf8.rune) : length (truncate errs) <= 80.
Proof.
  unfold truncate. destruct (Nat.ltb_spec 80 (length errs)) as [Hlt|Hle].
  - rewrite length_app, length_take. cbn [length]. lia.
  - exact Hle.
Qed.

(** ** C2 *)

(** C2. A POSTed report that fails validation, because the body does
    not decode or because [validate] returns an error, is answered
    with 400, and the handler writes nothing: the upload bucket, like
    the other buckets, is what it was before the request. *)
Theorem rejected_report_writes_nothing ucfg io r s :
  http.Method r = "POST" ->
  (exists err, json_Decode (http.Body r) = inr err) \/
  (exists report err, json_Decode (http.Body r) = inl report /\
                      validate report ucfg = Some err) ->
  content.status_code (handleUpload ucfg io r s).1 = Some http.StatusBadRequest /\
  storage.Upload (buckets (handleUpload ucfg io r s).2) = storage.Upload (buckets s) /\
  buckets (handleUpload ucfg io r s).2 = buckets s.
Proof.
  intros Hm [(err & Hd)|(report & err & Hd & Hv)].
  - rewrite (handleUpload_bad_JSON _ _ _ _ _ Hm Hd). now repeat split.
  - rewrite (handleUpload_invalid _ _ _ _ _ _ Hm Hd Hv). now repeat split.
Qed.

(** ** C3 *)

(** C3. Ingestion is idempotent: when the same request is accepted
    twice in a row, both times the report is stored under the same
    object name with the same content, and the second time the
    buckets do not change: no second object appears and the stored
    content stays what it was. *)
Theorem ingestion_idempotent ucfg io1 io2 r s s1 s2 :
  handleUpload ucfg io1 r s = (content.Status http.StatusOK, s1) ->
  handleUpload ucfg io2 r s1 = (content.Status http.StatusOK, s2) ->
  (exists report content,
      json_Decode (http.Body r) = inl report /\
      storage.Upload (buckets s1) !! object_name report = Some content /\
      storage.Upload (buckets s2) !! object_name report = Some content) /\
  dom (storage.Upload (buckets s2)) = dom (storage.Upload (buckets s1)) /\
  buckets s2 = buckets s1.
Proof.
  intros H1 H2.
  apply handleUpload_accepted in H1 as (report & data & _ & Hd & _ & Hj & ->).
  apply handleUpload_accepted in H2 as (report' & data' & _ & Hd' & _ & Hj' & ->).
  rewrite Hd in Hd'. injection Hd' as <-.
  rewrite Hj in Hj'. injection Hj' as <-.
  cbn [buckets storage.set_Upload storage.Upload storage.Merge storage.Chart].
  rewrite insert_insert_eq.
  repeat split.
  exists report, (data +:+ nl). split; [assumption|].
  split; apply lookup_insert_eq.
Qed.

(** ** C4 *)

(** C4. An accepted report is stored in the upload bucket under the
    object name made of its [Week], a slash, the [%g] rendering of its
    [X] and the suffix [.json]; no other object of the bucket
    changes. *)
Theorem accepted_report_object_name ucfg io r s s' :
  handleUpload ucfg io r s = (content.Status http.StatusOK, s') ->
  exists report data,
    json_Decode (http.Body r) = inl report /\
    json_Marshal report = inl data /\
    storage.Upload (buckets s') =
      <[Week report +:+ "/" +:+ fmt_g (X report) +:+ ".json" := data +:+ nl]>
        (storage.Upload (buckets s)).
Proof.
  intros Hok.
  apply handleUpload_accepted in Hok as (report & data & _ & Hd & _ & Hj & ->).
  exists report, data. repeat split; assumption.
Qed.

(** ** C6 *)

(** C6. The upload endpoint answers a request that is not a POST with
    405; a POST whose body does not decode, or whose report does not
    validate, with 400 and the description of the error; and a POST
    whose report decodes, validates and is stored with 200. *)
Theorem upload_endpoint_status ucfg io r s :
  (http.Method r <> "POST" ->
   content.status_code (handleUpload ucfg io r s).1 =
     Some http.StatusMethodNotAllowed) /\
  (http.Method r = "POST" ->
   forall err,
     json_Decode (http.Body r) = inr err \/
     (exists report, json_Decode (http.Body r) = inl report /\
                     validate report ucfg = Some err) ->
     content.status_code (handleUpload ucfg io r s).1 = Some http.StatusBadRequest /\
     content.description (handleUpload ucfg io r s).1 = Some err) /\
  (http.Method r = "POST" ->
   forall report data,
     json_Decode (http.Body r) = inl report ->
     validate report ucfg = None ->
     json_Marshal report = inl data ->
     storage.NewWriter_err io = None ->
     storage.Write_err io = None ->
     storage.Close_err io = None ->
     content.status_code (handleUpload ucfg io r s).1 = Some http.StatusOK /\
     storage.Upload (buckets (handleUpload ucfg io r s).2) !! object_name report
       = Some (data +:+ nl)).
Proof.
  split; [|split].
  - intros Hm. now rewrite handleUpload_not_POST.
  - intros Hm err [Hd|(report & Hd & Hv)].
    + now rewrite (handleUpload_bad_JSON _ _ _ _ _ Hm Hd).
    + now rewrite (handleUpload_invalid _ _ _ _ _ _ Hm Hd Hv).
  - intros Hm report data Hd Hv Hj Hn Hw Hc.
    rewrite (handleUpload_stored _ _ _ _ _ _ Hm Hd Hv Hj Hn Hw Hc).
    split; [reflexivity|]. apply lookup_insert_eq.
Qed.

Lemma truncate_int32 (errs : list utf8.rune) :
  Forall utf8.is_int32 errs -> Forall utf8.is_int32 (truncate errs).
Proof.
  intros Herrs. unfold truncate.
  destruct (80 <? length errs)%nat; [|assumption].
  apply Forall_app. split; [now apply Forall_take|].
  constructor; [|constructor].
  unfold utf8.is_int32. change (2 ^ 31)%Z with 2147483648%Z. lia.
Qed.

(** What [warn] appends to the log. *)
Lemma logged_warn (msg : string) (err : error) (s : Server) :
  logged (warn msg err s) =
  (logged s ++
   [msg +:+ ": " +:+ utf8.string_of_runes (truncate (utf8.runes err))])%list.
Proof. reflexivity. Qed.

(** ** C9 *)

(** C9. For an invalid payload or an invalid report, the server logs
    one line: a fixed message, a colon, and at most 80 characters of
    the error.  An error of up to 80 characters is logged whole; of a
    longer one the first 79 characters are logged, followed by an
    ellipsis. *)
Theorem logged_diagnostic_is_bounded ucfg io r s err :
  http.Method r = "POST" ->
  json_Decode (http.Body r) = inr err \/
  (exists report, json_Decode (http.Body r) = inl report /\
                  validate report ucfg = Some err) ->
  exists (msg : string) (errs : list utf8.rune),
    logged (handleUpload ucfg io r s).2 =
      (logged s ++ [msg +:+ ": " +:+ utf8.string_of_runes errs])%list /\
    length errs <= 80 /\
    utf8.RuneCountInString (utf8.string_of_runes errs) <= 80 /\
    (length (utf8.runes err) <= 80 -> errs = utf8.runes err) /\
    (80 < length (utf8.runes err) ->
     errs = (take 79 (utf8.runes err) ++ [0x2026%Z])%list).
Proof.
  intros Hm Hbad.
  assert (exists msg,
             logged (handleUpload ucfg io r s).2 = logged (warn msg err s))
    as [msg Hlog].
  { destruct Hbad as [Hd|(report & Hd & Hv)].
    - exists "invalid JSON payload".
      now rewrite (handleUpload_bad_JSON _ _ _ _ _ Hm Hd).
    - exists "invalid report".
      now rewrite (handleUpload_invalid _ _ _ _ _ _ Hm Hd Hv). }
  exists msg, (truncate (utf8.runes err)).
  split; [now rewrite Hlog, logged_warn|].
  split; [apply length_truncate|].
  split.
  { rewrite utf8_facts.RuneCount_string_of_runes.
    - apply length_truncate.
    - apply truncate_int32, utf8_facts.runes_int32. }
  unfold truncate.
  destruct (Nat.ltb_spec 80 (length (utf8.runes err))); split;
    intros; (reflexivity || lia).
Qed.

(** ** C10 *)

(** C10. A report without programs passes the per-program checks
    vacuously: when its week parses, its config is a valid semantic
    version and its [X] is not zero, [validate] returns nil, and the
    server stores the report, empty as it is, and answers 200. *)
Theorem empty_report_accepted ucfg report :
  Programs report = [] ->
  (exists t, time_Parse "2006-01-02" (Week report) = inl t) ->
  semver_IsValid (Config report) = true ->
  PrimFloat.eqb (X report) 0%float = false ->
  validate report ucfg = None /\
  forall io r s data,
    http.Method r = "POST" ->
    json_Decode (http.Body r) = inl report ->
    json_Marshal report = inl data ->
    storage.NewWriter_err io = None ->
    storage.Write_err io = None ->
    storage.Close_err io = None ->
    (handleUpload ucfg io r s).1 = content.Status http.StatusOK /\
    storage.Upload (buckets (handleUpload ucfg io r s).2) !! object_name report
      = Some (data +:+ nl).
Proof.
  intros Hp (t & Hw) Hc Hx.
  assert (validate report ucfg = None) as Hv.
  { unfold validate. now rewrite Hw, Hc, Hx, Hp. }
  split; [exact Hv|].
  intros io r s data Hm Hd Hj Hn Hwr Hcl.
  rewrite (handleUpload_stored _ _ _ _ _ _ Hm Hd Hv Hj Hn Hwr Hcl).
  split; [reflexivity|]. apply lookup_insert_eq.
Qed.

End handler.

(** The theorems above, run on the spec's concrete scenario. *)

Example validate_scenario :
  @validate fixture.lib fixture.report fixture.ucfg = None.
Proof. vm_compute. reflexivity. Qed.

Example validate_spoofed :
  @validate fixture.lib fixture.spoofed_report fixture.ucfg
  = Some "unknown counter secret/path".
Proof. vm_compute. reflexivity. Qed.

Lemma rejected_report_writes_nothing_witness :
  let out := @handleUpload fixture.lib fixture.ucfg storage.no_faults
               (fixture.POST fixture.spoofed_body) fixture.server0 in
  content.status_code out.1 = Some http.StatusBadRequest /\
  storage.Upload (buckets out.2) = storage.Upload (buckets fixture.server0) /\
  buckets out.2 = buckets fixture.server0.
Proof.
  apply (@rejected_report_writes_nothing fixture.lib); [reflexivity|].
  right. exists fixture.spoofed_report, "unknown counter secret/path".
  split; [reflexivity | vm_compute; reflexivity].
Defined.

Lemma logged_diagnostic_is_bounded_witness :
  exists (msg : string) (errs : list utf8.rune),
    logged (@handleUpload fixture.lib fixture.ucfg storage.no_faults
              (fixture.POST fixture.long_body) fixture.server0).2 =
      ([] ++ [msg +:+ ": " +:+ utf8.string_of_runes errs])%list /\
    length errs <= 80 /\
    utf8.RuneCountInString (utf8.string_of_runes errs) <= 80 /\
    (length (utf8.runes ("unknown counter " +:+ fixture.long_counter)) <= 80 ->
     errs = utf8.runes ("unknown counter " +:+ fixture.long_counter)) /\
    (80 < length (utf8.runes ("unknown counter " +:+ fixture.long_counter)) ->
     errs = (take 79 (utf8.runes ("unknown counter " +:+ fixture.long_counter))
               ++ [0x2026%Z])%list).
Proof.
  apply (@logged_diagnostic_is_bounded fixture.lib fixture.ucfg
           storage.no_faults (fixture.POST fixture.long_body) fixture.server0
           ("unknown counter " +:+ fixture.long_counter)); [reflexivity|].
  right. exists fixture.long_report. split; vm_compute; reflexivity.
Defined.

(** The line logged for the long counter: 79 characters of the error
    and an ellipsis. *)
Example logged_long_counter :
  logged (@handleUpload fixture.lib fixture.ucfg storage.no_faults
            (fixture.POST fixture.long_body) fixture.server0).2 =
  ["invalid report: unknown counter café/0123456789012345678901234567890123456789012345678901234567…"].
Proof. vm_compute. reflexivity. Qed.

Lemma ingestion_idempotent_witness :
  let s1 := (@handleUpload fixture.lib fixture.ucfg storage.no_faults
               (fixture.POST fixture.body) fixture.server0).2 in
  let s2 := (@handleUpload fixture.lib fixture.ucfg storage.no_faults
               (fixture.POST fixture.body) s1).2 in
  (exists report content,
      fixture.decode fixture.body = inl report /\
      storage.Upload (buckets s1) !! @object_name fixture.lib report = Some content /\
      storage.Upload (buckets s2) !! @object_name fixture.lib report = Some content) /\
  dom (storage.Upload (buckets s2)) = dom (storage.Upload (buckets s1)) /\
  buckets s2 = buckets s1.
Proof.
  apply (@ingestion_idempotent fixture.lib fixture.ucfg
           storage.no_faults storage.no_faults
           (fixture.POST fixture.body) fixture.server0);
    vm_compute; reflexivity.
Defined.

Lemma accepted_report_object_name_witness :
  exists report data,
    fixture.decode fixture.body = inl report /\
    fixture.marshal report = inl data /\
    storage.Upload
      (buckets (@handleUpload fixture.lib fixture.ucfg storage.no_faults
                  (fixture.POST fixture.body) fixture.server0).2) =
      <[Week report +:+ "/" +:+ fixture.render_g (X report) +:+ ".json"
        := data +:+ nl]>
        (storage.Upload (buckets fixture.server0)).
Proof.
  apply (@accepted_report_object_name fixture.lib fixture.ucfg
           storage.no_faults (fixture.POST fixture.body) fixture.server0).
  vm_compute. reflexivity.
Defined.

(** The object written for the spec's concrete scenario. *)
Example stored_scenario :
  map_to_list
    (storage.Upload
       (buckets (@handleUpload fixture.lib fixture.ucfg storage.no_faults
                   (fixture.POST fixture.body) fixture.server0).2)) =
  [("2024-01-08/0.5.json", "{Week:2024-01-08,X:0.5,Config:v1.0.0}" +:+ nl)].
Proof. vm_compute. reflexivity. Qed.

Lemma upload_endpoint_status_witness :
  let handle := @handleUpload fixture.lib fixture.ucfg storage.no_faults in
  content.status_code
    (handle {| http.Method := "GET"; http.Body := "" |} fixture.server0).1
    = Some http.StatusMethodNotAllowed /\
  (content.status_code (handle (fixture.POST "garbage") fixture.server0).1
    = Some http.StatusBadRequest /\
   content.description (handle (fixture.POST "garbage") fixture.server0).1
    = Some "invalid character in JSON payload") /\
  (content.status_code (handle (fixture.POST fixture.body) fixture.server0).1
    = Some http.StatusOK /\
   storage.Upload (buckets (handle (fixture.POST fixture.body) fixture.server0).2)
     !! "2024-01-08/0.5.json"
    = Some ("{Week:2024-01-08,X:0.5,Config:v1.0.0}" +:+ nl)).
Proof.
  split; [|split].
  - apply (@upload_endpoint_status fixture.lib fixture.ucfg storage.no_faults
             {| http.Method := "GET"; http.Body := "" |} fixture.server0).
    discriminate.
  - apply (@upload_endpoint_status fixture.lib fixture.ucfg storage.no_faults
             (fixture.POST "garbage") fixture.server0); [reflexivity|].
    left. reflexivity.
  - apply (proj2 (proj2 (@upload_endpoint_status fixture.lib fixture.ucfg
             storage.no_faults (fixture.POST fixture.body) fixture.server0))
             eq_refl fixture.report "{Week:2024-01-08,X:0.5,Config:v1.0.0}");
      reflexivity.
Defined.

Lemma empty_report_accepted_witness :
  @validate fixture.lib fixture.empty_report fixture.ucfg = None /\
  forall io r s data,
    http.Method r = "POST" ->
    fixture.decode (http.Body r) = inl fixture.empty_report ->
    fixture.marshal fixture.empty_report = inl data ->
    storage.NewWriter_err io = None ->
    storage.Write_err io = None ->
    storage.Close_err io = None ->
    (@handleUpload fixture.lib fixture.ucfg io r s).1 = content.Status http.StatusOK /\
    storage.Upload (buckets (@handleUpload fixture.lib fixture.ucfg io r s).2)
      !! @object_name fixture.lib fixture.empty_report
      = Some (data +:+ nl).
Proof.
  apply (@empty_report_accepted fixture.lib fixture.ucfg fixture.empty_report).
  - reflexivity.
  - exists (2024, 1, 8)%Z. reflexivity.
  - reflexivity.
  - reflexivity.
Defined.

End ingest.

(* ===================================================================== *)
(** * The uploader pass *)
(* ===================================================================== *)

Module uploader.
Import upload.

Section pass.
Context {Uploader World Work : Type} `{Collaborators Uploader World Work}.

Lemma attempted_app (t1 t2 : list Event) :
  attempted (t1 ++ t2) = (attempted t1 ++ attempted t2)%list.
Proof.
  induction t1 as [|e t1 IH]; [reflexivity|].
  destruct e; simpl; now rewrite IH.
Qed.

(** The loop over the ready reports calls [uploadReport] on each of
    them, whatever the calls before it returned. *)
Lemma for_range_uploads (u : Uploader) (ready : list string) (w : World) :
  (for_range ready (fun f =>
     bind (call (UploadReport f) (uploadReport u f)) (fun _ => ret tt)) w).2
  = map UploadReport ready.
Proof.
  revert w. induction ready as [|f ready IH]; intros w; [reflexivity|].
  cbn [for_range]. unfold bind at 1. unfold bind at 1, call, ret.
  destruct (uploadReport u f w) as [outcome w1].
  specialize (IH w1).
  destruct (for_range ready _ w1) as [[[] w2] t2]. simpl in *. now rewrite IH.
Qed.

Lemma attempted_uploads (fs : list string) :
  attempted (map UploadReport fs) = fs.
Proof. induction fs as [|f fs IH]; simpl; [reflexivity | now rewrite IH]. Qed.

(** The calls of one pass: [findWork], [reports], a log line when
    [reports] failed, and one [uploadReport] per ready report. *)
Lemma pass_trace (u : Uploader) (w w1 w2 : World) (todo : Work)
    (ready : list string) (err : option error) :
  findWork u w = (todo, w1) ->
  reports u todo w1 = ((ready, err), w2) ->
  (pass u w).2 =
  ([FindWork; Reports] ++
   match err with Some e => [Printf ("reports: " +:+ e)] | None => [] end ++
   map UploadReport ready)%list.
Proof.
  intros Hf Hr. unfold pass.
  unfold bind at 1. unfold call at 1. rewrite Hf.
  unfold bind at 1. unfold call at 1. rewrite Hr.
  unfold bind at 1.
  pose proof (for_range_uploads u ready w2) as Hloop.
  destruct err as [e|]; unfold logger_Printf, ret;
    destruct (for_range ready _ w2) as [[[] w3] t3];
    simpl in *; now rewrite Hloop.
Qed.

(** The loop over the ready reports hands the world from each
    [uploadReport] to the next, whatever the call returns. *)
Lemma for_range_world (u : Uploader) (ready : list string) (w : World) :
  for_range ready (fun f =>
    bind (call (UploadReport f) (uploadReport u f)) (fun _ => ret tt)) w =
  (tt, foldl (fun w f => (uploadReport u f w).2) w ready, map UploadReport ready).
Proof.
  revert w. induction ready as [|f ready IH]; intros w; [reflexivity|].
  cbn [for_range]. unfold bind at 1. unfold bind at 1, call, ret.
  destruct (uploadReport u f w) as [outcome w1] eqn:Hup.
  rewrite IH. cbn [foldl map app]. now rewrite Hup.
Qed.

(** The world that one pass leaves. *)
Lemma pass_world (u : Uploader) (w w1 w2 : World) (todo : Work)
    (ready : list string) (err : option error) :
  findWork u w = (todo, w1) ->
  reports u todo w1 = ((ready, err), w2) ->
  (pass u w).1.2 = foldl (fun w f => (uploadReport u f w).2) w2 ready.
Proof.
  intros Hf Hr. unfold pass.
  unfold bind at 1. unfold call at 1. rewrite Hf.
  unfold bind at 1. unfold call at 1. rewrite Hr.
  unfold bind at 1.
  destruct err as [e|]; unfold logger_Printf, ret;
    now rewrite for_range_world.
Qed.

Lemma disabledOnPlatform_iff `{runtime.Platform} :
  rev1.disabledOnPlatform = true <->
  runtime.GOOS ∈ disabled_GOOS \/ runtime.GOARCH ∈ disabled_GOARCH.
Proof.
  unfold rev1.disabledOnPlatform, disabled_GOOS, disabled_GOARCH.
  rewrite !orb_true_iff, !String.eqb_eq.
  rewrite !elem_of_cons, !elem_of_nil. split.
  - intros [[[[[[Hf|Ho]|Hs]|Ha]|Hj]|Hw]|H386]; try discriminate; tauto.
  - tauto.
Qed.

(** ** C5 *)

(** C5. On a platform of the static disabled list, [Run] returns at
    once: it calls neither [findWork] nor [reports] nor
    [uploadReport], logs nothing and leaves the world as it is.  In
    the first revision the list is the constant [disabledOnPlatform]
    over [runtime.GOOS] and [runtime.GOARCH]; in the second it is the
    constant [telemetry.DisabledOnPlatform]. *)
Theorem Run_disabled_is_noop (u : Uploader) (w : World) :
  (forall P : runtime.Platform,
      runtime.GOOS ∈ disabled_GOOS \/ runtime.GOARCH ∈ disabled_GOARCH ->
      rev1.Run u w = (tt, w, [])) /\
  (DisabledOnPlatform = true -> rev2.Run u w = (tt, w, [])).
Proof.
  split.
  - intros P HP. apply disabledOnPlatform_iff in HP.
    unfold rev1.Run. now rewrite HP.
  - intros Hd. unfold rev2.Run. now rewrite Hd.
Qed.

(** ** C7 *)

(** C7. On a platform that is not disabled, one pass uploads every
    ready report, once and in order, whatever each [uploadReport]
    meets: the calls of [uploadReport] are those for the ready reports,
    the world that [Run] leaves is the one that [reports] left with the
    upload of each ready report applied to it in turn, and after any
    report [f] of the list, failed or not, the reports after it are
    uploaded all the same, starting from the world that the upload of
    [f] left. *)
Theorem Run_attempts_every_ready_report (u : Uploader) (w w1 w2 : World)
    (todo : Work) (ready : list string) (err : option error) :
  findWork u w = (todo, w1) ->
  reports u todo w1 = ((ready, err), w2) ->
  let upload := fun w f => (uploadReport u f w).2 in
  let attempts_all (result : unit * World * list Event) :=
    attempted result.2 = ready /\
    result.1.2 = foldl upload w2 ready /\
    forall before f after,
      ready = (before ++ f :: after)%list ->
      result.1.2 = foldl upload (upload (foldl upload w2 before) f) after in
  (DisabledOnPlatform = false -> attempts_all (rev2.Run u w)) /\
  (forall P : runtime.Platform,
      rev1.disabledOnPlatform = false -> attempts_all (rev1.Run u w)).
Proof.
  intros Hf Hr upload attempts_all.
  assert (attempts_all (pass u w)) as Hpass.
  { unfold attempts_all.
    rewrite (pass_trace u w w1 w2 todo ready err Hf Hr).
    rewrite (pass_world u w w1 w2 todo ready err Hf Hr).
    rewrite !attempted_app, attempted_uploads.
    split; [now destruct err|]. split; [reflexivity|].
    intros before f after ->. now rewrite foldl_app. }
  split.
  - intros Hd. unfold rev2.Run. now rewrite Hd.
  - intros P Hd. unfold rev1.Run. now rewrite Hd.
Qed.

End pass.

Lemma Run_disabled_is_noop_witness :
  @rev1.Run _ _ _ (fixture.collaborators true) fixture.openbsd tt ["old.json"]
  = (tt, ["old.json"], []) /\
  @rev2.Run _ _ _ (fixture.collaborators true) tt ["old.json"]
  = (tt, ["old.json"], []).
Proof.
  destruct (@Run_disabled_is_noop _ _ _ (fixture.collaborators true)
              tt ["old.json"]) as [H1 H2].
  split; [apply (H1 fixture.openbsd) | apply H2; reflexivity].
  left. unfold disabled_GOOS. simpl. constructor.
Defined.

Lemma Run_attempts_every_ready_report_witness :
  (attempted (@rev2.Run _ _ _ (fixture.collaborators false) tt []).2
   = ["2024-01-08.json"; "2024-01-15.json"] /\
   (@rev2.Run _ _ _ (fixture.collaborators false) tt []).1.2
   = ["2024-01-15.json"]) /\
  (attempted (@rev1.Run _ _ _ (fixture.collaborators false)
                fixture.linux_amd64 tt []).2
   = ["2024-01-08.json"; "2024-01-15.json"] /\
   (@rev1.Run _ _ _ (fixture.collaborators false)
      fixture.linux_amd64 tt []).1.2
   = ["2024-01-15.json"]).
Proof.
  destruct (@Run_attempts_every_ready_report _ _ _ (fixture.collaborators false)
              tt [] [] [] tt ["2024-01-08.json"; "2024-01-15.json"] None
              eq_refl eq_refl) as [H2 H1].
  split.
  - destruct (H2 eq_refl) as (Ha & Hw & _). split; [exact Ha | exact Hw].
  - destruct (H1 fixture.linux_amd64 eq_refl) as (Ha & Hw & _).
    split; [exact Ha | exact Hw].
Defined.

End uploader.

(* ===================================================================== *)
(** * The crash monitor's counter names *)
(* ===================================================================== *)

Module crash.
Import strings crashmonitor.

Lemma contains_byte_append (c : ascii) (s t : string) :
  contains_byte c (s +:+ t) = contains_byte c s || contains_byte c t.
Proof.
  induction s as [|a s IH]; [reflexivity|].
  rewrite strings_facts.append_cons. simpl. now rewrite IH, orb_assoc.
Qed.

Lemma redact_no_newline (line : string) :
  contains_byte "010" line = false -> contains_byte "010" (redact line) = false.
Proof.
  intros Hl. unfold redact.
  destruct (Cut line ":") as [[symbol after] ok] eqn:Hcut.
  destruct ok; simpl; [|assumption].
  destruct (negb (HasPrefix line own_package)); [|assumption].
  apply strings_facts.Cut_byte_found in Hcut as [-> _].
  rewrite contains_byte_append in Hl. apply orb_false_iff in Hl as [Hs _].
  rewrite contains_byte_append, Hs. reflexivity.
Qed.

(** The lines of the sanitized name are the redacted lines of the
    name, one for one. *)
Lemma sanitize_lines (name : string) :
  Split (sanitize name) nl = map redact (Split name nl).
Proof.
  unfold sanitize, nl. rewrite !strings_facts.Split_byte.
  fold redact. change (fun line => redact line) with redact.
  apply strings_facts.split_byte_Join.
  - pose proof (strings_facts.split_byte_nonempty "010" name) as Hne.
    destruct (split_byte "010" name); [contradiction | discriminate].
  - intros l Hl. apply in_map_iff in Hl as (l0 & <- & Hl0).
    apply redact_no_newline.
    now apply (strings_facts.split_byte_lines "010" name).
Qed.


(** ** C8 *)

(** The test can pass: there is a sanitizer that it accepts. *)
Example TestViaStderr_can_pass :
  @TestViaStderr fixture.passing_sanitizer "panic: oops" = true.
Proof. vm_compute. reflexivity. Qed.




(** The names the two tests expect are sanitized names, and [sanitize]
    maps the raw stack to the first of them. *)
Example sanitize_raw_stack : sanitize raw_stack = TestViaStderr_want.
Proof. vm_compute. reflexivity. Qed.

Example sanitize_TestStart_want : sanitize TestStart_want = TestStart_want.
Proof. vm_compute. reflexivity. Qed.

(** Outside its own package, [sanitize] replaces what follows the first
    colon of a line by [--]. *)
Lemma sanitize_redacts_other_frames (name : string) (i : nat)
    (line symbol after : string) :
  Split name nl !! i = Some line ->
  own_frame line = false ->
  Cut line ":" = (symbol, after, true) ->
  Split (sanitize name) nl !! i = Some (symbol +:+ ":--").
Proof.
  intros Hi Hown Hcut. rewrite sanitize_lines, list_lookup_fmap, Hi. simpl.
  f_equal. unfold redact. unfold own_frame in Hown.
  now rewrite Hcut, Hown.
Qed.

End crash.

(* ===================================================================== *)
(** * More facts about the string functions *)
(* ===================================================================== *)

Module strings_trim.
Import strings strings_facts.

Lemma substring_split (s : string) (k : nat) :
  k <= String.length s ->
  substring 0 k s +:+ substring k (String.length s - k) s = s.
Proof.
  revert k. induction s as [|a s IH]; intros k Hk.
  - simpl in Hk. replace k with 0 by lia. reflexivity.
  - destruct k as [|k].
    + simpl. rewrite append_nil_l. now rewrite substring_all.
    + simpl in Hk. cbn [substring String.length Nat.sub].
      rewrite append_cons. f_equal. apply IH. lia.
Qed.

Lemma substring_length (s : string) (n m : nat) :
  n + m <= String.length s -> String.length (substring n m s) = m.
Proof.
  revert n m. induction s as [|a s IH]; intros n m Hnm.
  - simpl in Hnm. assert (n = 0) by lia. assert (m = 0) by lia. now subst.
  - destruct n as [|n].
    + destruct m as [|m]; [reflexivity|].
      simpl. f_equal. apply (IH 0 m). simpl in Hnm. lia.
    + simpl. apply IH. simpl in Hnm. lia.
Qed.

(** Trimming a prefix that is there leaves what follows it. *)
Lemma TrimPrefix_append (p t : string) : TrimPrefix (p +:+ t) p = t.
Proof.
  unfold TrimPrefix. rewrite HasPrefix_append. unfold slice.
  rewrite <- (Nat.add_0_r (String.length p)) at 1.
  rewrite substring_append_r, length_append.
  replace (String.length p + String.length t - String.length p)
    with (String.length t) by lia.
  apply substring_all.
Qed.

Lemma HasSuffix_append (t suf : string) : HasSuffix (t +:+ suf) suf = true.
Proof.
  unfold HasSuffix, slice. rewrite length_append.
  apply andb_true_iff. split; [apply Nat.leb_le; lia|].
  replace (String.length t + String.length suf - String.length suf)
    with (String.length t + 0) by lia.
  rewrite substring_append_r.
  replace (String.length t + String.length suf - (String.length t + 0))
    with (String.length suf) by lia.
  rewrite substring_all. apply String.eqb_refl.
Qed.

Lemma TrimSuffix_append (t suf : string) : TrimSuffix (t +:+ suf) suf = t.
Proof.
  unfold TrimSuffix. rewrite HasSuffix_append. unfold slice.
  rewrite length_append, Nat.sub_0_r.
  replace (String.length t + String.length suf - String.length suf)
    with (String.length t) by lia.
  apply substring_append_l.
Qed.

(** A string that has the suffix is what [TrimSuffix] leaves, and the
    suffix. *)
Lemma TrimSuffix_HasSuffix (s suf : string) :
  HasSuffix s suf = true -> TrimSuffix s suf +:+ suf = s.
Proof.
  intros Hs. unfold TrimSuffix. rewrite Hs.
  unfold HasSuffix in Hs. apply andb_true_iff in Hs as [Hlen Heq].
  apply Nat.leb_le in Hlen. apply String.eqb_eq in Heq.
  unfold slice in *. rewrite Nat.sub_0_r.
  pose proof (substring_split s (String.length s - String.length suf)
                ltac:(lia)) as Hsplit.
  now rewrite Heq in Hsplit.
Qed.

Lemma TrimSuffix_no_suffix (s suf : string) :
  HasSuffix s suf = false -> TrimSuffix s suf = s.
Proof. intros Hs. unfold TrimSuffix. now rewrite Hs. Qed.

(** Replacing a byte by nothing removes every occurrence of it. *)
Lemma replace_loop_byte (c : ascii) (n : nat) (s : string) :
  String.length s <= n ->
  replace_loop n s (String c "") "" = remove_byte c s.
Proof.
  revert s. induction n as [|n IH]; intros s Hn.
  - destruct s; [reflexivity | simpl in Hn; lia].
  - cbn [replace_loop]. rewrite Cut_byte.
    destruct (cut_byte c s) as [[b r]|] eqn:Hc.
    + apply cut_byte_Some in Hc as [-> Hb].
      rewrite length_append in Hn. simpl in Hn. rewrite IH by lia.
      rewrite append_nil_l. clear -Hb.
      induction b as [|a b IHb].
      * rewrite !append_nil_l. simpl. now rewrite Ascii.eqb_refl.
      * simpl in Hb. apply orb_false_iff in Hb as [Ha Hb].
        rewrite !append_cons. simpl. rewrite Ha. now rewrite IHb.
    + apply cut_byte_None in Hc. clear -Hc.
      induction s as [|a s IHs]; [reflexivity|].
      simpl in *. apply orb_false_iff in Hc as [Ha Hs]. rewrite Ha.
      now rewrite <- IHs.
Qed.

Lemma ReplaceAll_byte (c : ascii) (s : string) :
  ReplaceAll s (String c "") "" = remove_byte c s.
Proof. unfold ReplaceAll. simpl. apply replace_loop_byte. lia. Qed.

Lemma remove_byte_clean (c : ascii) (s : string) :
  contains_byte c (remove_byte c s) = false.
Proof.
  induction s as [|a s IH]; [reflexivity|]. simpl.
  destruct (Ascii.eqb a c) eqn:Ha; [exact IH|]. simpl. now rewrite Ha.
Qed.

Lemma HasPrefix_contains (c : ascii) (s p : string) :
  HasPrefix s p = true -> contains_byte c p = true -> contains_byte c s = true.
Proof.
  unfold HasPrefix. revert s. induction p as [|a p IH]; intros s Hp Hc.
  - discriminate.
  - destruct s as [|b s]; [discriminate|]. simpl in Hp.
    destruct (ascii_dec a b) as [->|]; [|discriminate].
    simpl in *. destruct (Ascii.eqb b c); [reflexivity|]. simpl in *.
    now apply IH.
Qed.

End strings_trim.

(* ===================================================================== *)
(** * More about [validate] *)
(* ===================================================================== *)

Module validation.
Import telemetry telemetrygodev.

Lemma range_err_None {A} (xs : list A) (body : A -> option error) :
  range_err xs body = None <-> forall x, x ∈ xs -> body x = None.
Proof.
  induction xs as [|x xs IH]; simpl.
  - split; [|reflexivity]. intros _ x Hx. now apply elem_of_nil in Hx.
  - destruct (body x) as [e|] eqn:Hb.
    + split; [discriminate|]. intros Hall.
      rewrite <- Hb. apply Hall. left.
    + rewrite IH. split.
      * intros Hall y Hy. apply elem_of_cons in Hy as [->|Hy]; auto.
      * intros Hall y Hy. apply Hall. now right.
Qed.

Lemma range_err_app {A} (xs ys : list A) (body : A -> option error) :
  range_err (xs ++ ys) body =
  match range_err xs body with
  | Some e => Some e
  | None => range_err ys body
  end.
Proof.
  induction xs as [|x xs IH]; [reflexivity|]. simpl.
  destruct (body x); [reflexivity | exact IH].
Qed.

Section validate.
Context `{GoLib}.

(** [validate] is its three header checks and then the loop over the
    programs. *)
Lemma validate_programs (r : Report) (cfg : tconfig.Config) :
  validate r cfg =
  match time_Parse "2006-01-02" (Week r) with
  | inr _ => Some ("invalid week " +:+ Week r)
  | inl _ =>
      if negb (semver_IsValid (Config r)) then
        Some ("invalid config " +:+ Config r)
      else if PrimFloat.eqb (X r) 0%float then
        Some ("invalid X " +:+ fmt_g (X r))
      else range_err (Programs r) (validate_program cfg)
  end.
Proof. reflexivity. Qed.

(** A program report passes when its build is allowed, every counter key
    is a counter of its program and the first line of every stack key is
    a stack of its program. *)
Lemma validate_program_None (cfg : tconfig.Config) (p : ProgramReport) :
  validate_program cfg p = None <->
  (GOARCH p ∈ tconfig.goarch cfg /\
   GOOS p ∈ tconfig.goos cfg /\
   GoVersion p ∈ tconfig.goversion cfg /\
   Program p ∈ tconfig.program cfg /\
   (Program p, Version p) ∈ tconfig.pgversion cfg) /\
  (forall c, c ∈ dom (Counters p) -> (Program p, c) ∈ tconfig.pgcounter cfg) /\
  (forall s, s ∈ dom (Stacks p) ->
             (Program p, first_line s) ∈ tconfig.pgstack cfg).
Proof.
  unfold validate_program.
  unfold tconfig.HasGOARCH, tconfig.HasGOOS, tconfig.HasGoVersion,
    tconfig.HasProgram, tconfig.HasVersion.
  destruct (negb (bool_decide _) || _ || _ || _ || _) eqn:Hbuild.
  - split; [discriminate|]. intros [Hb _]. exfalso.
    rewrite !orb_true_iff, !negb_true_iff, !bool_decide_eq_false in Hbuild.
    tauto.
  - rewrite !orb_false_iff, !negb_false_iff, !bool_decide_eq_true in Hbuild.
    destruct (range_err (keys (Counters p)) _) as [e|] eqn:Hc.
    + split; [discriminate|]. intros (_ & Hcs & _). exfalso.
      assert (range_err (keys (Counters p))
                (fun c => if negb (tconfig.HasCounter cfg (Program p) c)
                          then Some ("unknown counter " +:+ c) else None)
              = None) as Hnone; [|congruence].
      apply range_err_None. intros c Hin. apply ingest.elem_of_keys in Hin.
      unfold tconfig.HasCounter. now rewrite bool_decide_eq_true_2 by auto.
    + rewrite range_err_None in Hc. rewrite range_err_None. split.
      * intros Hs. split; [tauto|]. split.
        -- intros c Hin. apply ingest.elem_of_keys in Hin.
           specialize (Hc c Hin). unfold tconfig.HasCounter in Hc.
           destruct (bool_decide _) eqn:Hd; [|discriminate].
           now apply bool_decide_eq_true in Hd.
        -- intros s Hin. apply ingest.elem_of_keys in Hin.
           specialize (Hs s Hin). rewrite <- ingest.Cut_first_line.
           destruct (strings.Cut s nl) as [[prefix after] found]. simpl.
           unfold tconfig.HasStack in Hs.
           destruct (bool_decide _) eqn:Hd; [|discriminate].
           now apply bool_decide_eq_true in Hd.
      * intros (_ & _ & Hss) s Hin. apply ingest.elem_of_keys in Hin.
        specialize (Hss s Hin). rewrite <- ingest.Cut_first_line in Hss.
        destruct (strings.Cut s nl) as [[prefix after] found]. simpl in Hss.
        unfold tconfig.HasStack. now rewrite bool_decide_eq_true_2.
Qed.

(** A report passes when its header passes and each program passes. *)
Lemma validate_None (r : Report) (cfg : tconfig.Config) :
  validate r cfg = None <->
  (exists t, time_Parse "2006-01-02" (Week r) = inl t) /\
  semver_IsValid (Config r) = true /\
  PrimFloat.eqb (X r) 0%float = false /\
  forall p, p ∈ Programs r -> validate_program cfg p = None.
Proof.
  rewrite validate_programs.
  destruct (time_Parse "2006-01-02" (Week r)) as [t|e].
  2:{ split; [discriminate|]. intros [[t Ht] _]. discriminate. }
  destruct (semver_IsValid (Config r)); simpl.
  2:{ split; [discriminate|]. intros (_ & Hc & _). discriminate. }
  destruct (PrimFloat.eqb (X r) 0).
  { split; [discriminate|]. intros (_ & _ & Hx & _). discriminate. }
  rewrite range_err_None. split.
  - intros Hall. repeat split; eauto.
  - intros (_ & _ & _ & Hall). exact Hall.
Qed.

(** The programs of a report are validated one after the other: the
    result for the programs [ps1 ++ ps2] is the error found with [ps1]
    alone, and with none the result for [ps2] alone. *)
Theorem validate_programs_in_order (r : Report) (cfg : tconfig.Config)
    (ps1 ps2 : list ProgramReport) :
  validate (with_Programs r (ps1 ++ ps2)) cfg =
  match validate (with_Programs r ps1) cfg with
  | Some e => Some e
  | None => validate (with_Programs r ps2) cfg
  end.
Proof.
  rewrite !validate_programs. cbn [with_Programs Week X Config Programs].
  destruct (time_Parse "2006-01-02" (Week r)); [|reflexivity].
  destruct (negb (semver_IsValid (Config r))); [reflexivity|].
  destruct (PrimFloat.eqb (X r) 0); [reflexivity|].
  apply range_err_app.
Qed.

(** A report that passes still passes when the configuration allows
    more, and so does every part of it. *)
Theorem validate_monotone (r r' : Report) (cfg cfg' : tconfig.Config) :
  tconfig.allows_more cfg cfg' ->
  part_of r' r ->
  validate r cfg = None ->
  validate r' cfg' = None.
Proof.
  intros (Harch & Hos & Hgo & Hprog & Hver & Hcnt & Hstk)
         (Hweek & Hx & Hconfig & Hparts).
  rewrite !validate_None, Hweek, Hx, Hconfig.
  intros (Ht & Hc & Hnz & Hall). repeat split; try assumption.
  intros p' Hp'. destruct (Hparts p' Hp') as (p & Hp & Hpart).
  destruct Hpart as (Ep & Ev & Eg & Eo & Ea & Hcs & Hss).
  specialize (Hall p Hp). rewrite validate_program_None in Hall |- *.
  destruct Hall as ((A1 & A2 & A3 & A4 & A5) & Hc1 & Hs1).
  rewrite Ep, Ev, Eg, Eo, Ea. repeat split.
  - now apply Harch.
  - now apply Hos.
  - now apply Hgo.
  - now apply Hprog.
  - now apply Hver.
  - intros c Hin. apply Hcnt, Hc1, Hcs, Hin.
  - intros s Hin. apply Hstk, Hs1, Hss, Hin.
Qed.

End validate.

Lemma validate_monotone_witness :
  @validate fixture.lib fixture.report fixture.ucfg_wider = None.
Proof.
  apply (@validate_monotone fixture.lib fixture.spoofed_report fixture.report
           fixture.ucfg_wider fixture.ucfg_wider).
  - repeat split; reflexivity.
  - repeat split. intros p' Hp'. apply list_elem_of_singleton in Hp' as ->.
    eexists. split; [apply list_elem_of_singleton; reflexivity|].
    repeat split; try reflexivity.
    + cbn. set_solver.
  - vm_compute. reflexivity.
Defined.

End validation.

(* ===================================================================== *)
(** * More about the log line of [warn] *)
(* ===================================================================== *)

Module diagnostics.
Import telemetry telemetrygodev utf8 strings_facts.

Lemma string_of_runes_app (rs1 rs2 : list rune) :
  string_of_runes (rs1 ++ rs2) = string_of_runes rs1 +:+ string_of_runes rs2.
Proof.
  induction rs1 as [|r rs1 IH]; [reflexivity|].
  cbn [app string_of_runes]. now rewrite IH, append_assoc.
Qed.

(** No rune takes more than four bytes. *)
Lemma length_EncodeRune (r : rune) : String.length (EncodeRune r) <= 4.
Proof.
  unfold EncodeRune, encode3.
  repeat match goal with
         | |- context [if ?c then _ else _] => destruct c
         end; simpl; lia.
Qed.

Lemma length_string_of_runes (rs : list rune) :
  String.length (string_of_runes rs) <= 4 * length rs.
Proof.
  induction rs as [|r rs IH]; [simpl; lia|].
  cbn [string_of_runes length]. rewrite length_append.
  pose proof (length_EncodeRune r). lia.
Qed.

(** What is no scalar value is encoded like [RuneError]. *)
Lemma EncodeRune_scalar_or_error (r : rune) :
  is_int32 r -> EncodeRune (scalar_or_error r) = EncodeRune r.
Proof.
  intros Hr.
  assert (forall r', (r' < 0 \/ MaxRune < r' \/
                      surrogateMin <= r' <= surrogateMax)%Z ->
                     is_int32 r' ->
                     EncodeRune (scalar_or_error r') = EncodeRune r') as Hother.
  { intros r' Hbad Hr'.
    rewrite utf8_facts.scalar_or_error_other, (utf8_facts.EncodeRune_error r')
      by assumption.
    now rewrite utf8_facts.EncodeRune_3 by (vm_compute; intuition congruence). }
  destruct (Z_lt_le_dec r 0%Z) as [Hneg|Hpos]; [apply Hother; auto|].
  destruct (Z_le_gt_dec r MaxRune) as [Hmax|Hmax]; [|apply Hother; auto; lia].
  destruct (Z_lt_le_dec r surrogateMin) as [Hlo|Hlo].
  - now rewrite utf8_facts.scalar_or_error_scalar by lia.
  - destruct (Z_le_gt_dec r surrogateMax) as [Hhi|Hhi]; [apply Hother; auto|].
    now rewrite utf8_facts.scalar_or_error_scalar by lia.
Qed.

(** The string of a rune slice is well-formed UTF-8: converting it to
    runes and back gives the same string. *)
Lemma string_of_runes_wellformed (rs : list rune) :
  Forall is_int32 rs ->
  string_of_runes (runes (string_of_runes rs)) = string_of_runes rs.
Proof.
  intros Hrs. rewrite utf8_facts.runes_string_of_runes by assumption.
  induction Hrs as [|r rs Hr Hrs IH]; [reflexivity|].
  cbn [map string_of_runes]. now rewrite EncodeRune_scalar_or_error, IH.
Qed.

Lemma to_byte_byte_of (a : ascii) : to_byte (byte_of a) = a.
Proof.
  unfold to_byte, byte_of.
  pose proof (N_ascii_bounded a) as Hb.
  rewrite Z.mod_small by lia. rewrite N2Z.id. apply ascii_N_embedding.
Qed.

(** The runes of an ASCII string are its bytes. *)
Lemma runes_ascii (s : string) :
  ascii_only s = true ->
  runes s = map byte_of (list_ascii_of_string s).
Proof.
  induction s as [|a s IH]; [reflexivity|]. simpl.
  intros Hs. apply andb_true_iff in Hs as [Ha Hs].
  unfold runes. cbn [String.length decode DecodeRuneInString].
  assert (first (byte_of a) = LeadASCII) as ->.
  { unfold first. now rewrite Ha. }
  cbn [drop_bytes]. f_equal.
  rewrite utf8_facts.decode_fuel by lia. now apply IH.
Qed.

Lemma string_of_runes_bytes (l : list ascii) :
  forallb (fun a => byte_of a <? 0x80)%Z l = true ->
  string_of_runes (map byte_of l) = string_of_list_ascii l.
Proof.
  induction l as [|a l IH]; [reflexivity|]. simpl.
  intros Hl. apply andb_true_iff in Hl as [Ha Hl].
  rewrite utf8_facts.EncodeRune_1, to_byte_byte_of.
  - rewrite append_cons, append_nil_l. now rewrite IH.
  - pose proof (utf8_facts.byte_of_range a). lia.
Qed.

Lemma ascii_only_forallb (s : string) :
  ascii_only s = forallb (fun a => byte_of a <? 0x80)%Z (list_ascii_of_string s).
Proof. induction s as [|a s IH]; [reflexivity|]. simpl. now rewrite IH. Qed.

Lemma length_list_ascii (s : string) :
  length (list_ascii_of_string s) = String.length s.
Proof. induction s as [|a s IH]; [reflexivity|]. simpl. now rewrite IH. Qed.

Lemma take_list_ascii (n : nat) (s : string) :
  string_of_list_ascii (take n (list_ascii_of_string s)) = substring 0 n s.
Proof.
  revert n. induction s as [|a s IH]; intros [|n]; try reflexivity.
  simpl. now rewrite IH.
Qed.

Lemma take_map {A B} (f : A -> B) (n : nat) (l : list A) :
  take n (map f l) = map f (take n l).
Proof.
  revert n. induction l as [|a l IH]; intros [|n]; try reflexivity.
  simpl. now rewrite IH.
Qed.

Lemma forallb_take {A} (f : A -> bool) (n : nat) (l : list A) :
  forallb f l = true -> forallb f (take n l) = true.
Proof.
  revert n. induction l as [|a l IH]; intros [|n] Hl; try reflexivity.
  simpl in *. apply andb_true_iff in Hl as [-> Hl]. now apply IH.
Qed.

(** The ellipsis, as [string(rune)] writes it. *)
Lemma ellipsis_bytes : string_of_runes [0x2026%Z] = "…".
Proof. vm_compute. reflexivity. Qed.

Section warn.
Context `{GoLib}.

(** An error text of ASCII is logged as it is when it has at most 80
    bytes; of a longer one the first 79 bytes are logged, with an
    ellipsis after them. *)
Theorem warn_ascii (msg : string) (err : error) (s : Server) :
  ascii_only err = true ->
  logged (warn msg err s) =
  (logged s ++
   [msg +:+ ": " +:+
    (if (80 <? String.length err)%nat then substring 0 79 err +:+ "…"
     else err)])%list.
Proof.
  intros Hascii. rewrite ingest.logged_warn. do 3 f_equal.
  unfold truncate. rewrite (runes_ascii _ Hascii), length_map, length_list_ascii.
  rewrite ascii_only_forallb in Hascii.
  destruct (80 <? String.length err)%nat.
  - rewrite string_of_runes_app, ellipsis_bytes, take_map.
    rewrite string_of_runes_bytes by now apply forallb_take.
    now rewrite take_list_ascii.
  - rewrite string_of_runes_bytes by assumption.
    now rewrite string_of_list_ascii_of_string.
Qed.

(** The text logged for an error is well-formed UTF-8 of at most 80
    runes and at most 320 bytes. *)
Lemma logged_text_wellformed (err : error) :
  let text := string_of_runes (truncate (runes err)) in
  string_of_runes (runes text) = text /\
  RuneCountInString text <= 80 /\
  String.length text <= 320.
Proof.
  assert (Forall is_int32 (truncate (runes err))) as Hint
      by apply ingest.truncate_int32, utf8_facts.runes_int32.
  pose proof (ingest.length_truncate (runes err)) as Hlen.
  split; [|split].
  - now apply string_of_runes_wellformed.
  - now rewrite utf8_facts.RuneCount_string_of_runes.
  - pose proof (length_string_of_runes (truncate (runes err))). lia.
Qed.

(** Whatever bytes the error text has, the text that [warn] logs for it
    is well-formed UTF-8 of at most 80 runes and at most 320 bytes. *)
Theorem warn_text_wellformed (msg : string) (err : error) (s : Server) :
  exists text,
    logged (warn msg err s) = (logged s ++ [msg +:+ ": " +:+ text])%list /\
    string_of_runes (runes text) = text /\
    RuneCountInString text <= 80 /\
    String.length text <= 320.
Proof.
  exists (string_of_runes (truncate (runes err))).
  split; [apply ingest.logged_warn | apply logged_text_wellformed].
Qed.

End warn.

Lemma warn_ascii_witness :
  telemetrygodev.logged
    (telemetrygodev.warn "invalid report" "unknown counter secret/path"
       fixture.server0) =
  ["invalid report: unknown counter secret/path"].
Proof.
  apply (warn_ascii "invalid report" "unknown counter secret/path"
           fixture.server0).
  reflexivity.
Defined.

End diagnostics.

(* ===================================================================== *)
(** * More about [handleUpload] *)
(* ===================================================================== *)

Module upload_handler.
Import telemetry telemetrygodev.

Section handler.
Context `{GoLib}.

(** Whatever the request and whatever the storage backend reports,
    [handleUpload] leaves the merge and chart buckets alone, and in the
    upload bucket it leaves every object alone but the one named after
    the report in the body. *)
Theorem handleUpload_frame ucfg io r s :
  let s' := (handleUpload ucfg io r s).2 in
  storage.Merge (buckets s') = storage.Merge (buckets s) /\
  storage.Chart (buckets s') = storage.Chart (buckets s) /\
  forall name,
    (forall report, json_Decode (http.Body r) = inl report ->
                    name <> object_name report) ->
    storage.Upload (buckets s') !! name = storage.Upload (buckets s) !! name.
Proof.
  unfold handleUpload.
  destruct (String.eqb (http.Method r) "POST"); [|now repeat split].
  destruct (json_Decode (http.Body r)) as [report|err]; [|now repeat split].
  destruct (validate report ucfg) as [err|]; [now repeat split|].
  unfold deferred_Close.
  unfold storage.NewWriter, Encode, storage.Write, storage.Close.
  destruct (storage.NewWriter_err io) as [e|]; [now repeat split|].
  destruct (json_Marshal report) as [data|e]; simpl;
    destruct (storage.Write_err io) as [e1|]; simpl;
    destruct (storage.Close_err io) as [e2|]; simpl;
    repeat split; try reflexivity;
    intros name Hname; apply lookup_insert_ne;
    intros Heq; now apply (Hname report).
Qed.

(** The log only grows, by one line at most, and it grows exactly when
    the answer is 400; that line has at most 342 bytes. *)
Theorem handleUpload_log ucfg io r s :
  let out := handleUpload ucfg io r s in
  (content.status_code out.1 <> Some http.StatusBadRequest ->
   logged out.2 = logged s) /\
  (content.status_code out.1 = Some http.StatusBadRequest ->
   exists line, logged out.2 = (logged s ++ [line])%list /\
                String.length line <= 342).
Proof.
  assert (forall msg err,
             String.length msg <= 20 ->
             exists line, logged (warn msg err s) = (logged s ++ [line])%list /\
                          String.length line <= 342) as Hwarn.
  { intros msg err Hmsg.
    destruct (diagnostics.logged_text_wellformed err) as (_ & _ & Hlen).
    eexists. split; [apply ingest.logged_warn|].
    rewrite !strings_facts.length_append. simpl. lia. }
  unfold handleUpload.
  destruct (String.eqb (http.Method r) "POST");
    [|split; [reflexivity | discriminate]].
  destruct (json_Decode (http.Body r)) as [report|err].
  2:{ split; [intros Hne; now elim Hne|]. intros _. apply Hwarn. simpl. lia. }
  destruct (validate report ucfg) as [err|].
  { split; [intros Hne; now elim Hne|]. intros _. apply Hwarn. simpl. lia. }
  unfold deferred_Close.
  unfold storage.NewWriter, Encode, storage.Write, storage.Close.
  destruct (storage.NewWriter_err io) as [e|];
    [split; [reflexivity | discriminate]|].
  destruct (json_Marshal report) as [data|e]; simpl;
    destruct (storage.Write_err io) as [e1|]; simpl;
    destruct (storage.Close_err io) as [e2|]; simpl;
    (split; [reflexivity | discriminate]).
Qed.

(** Two accepted reports for the same week with the same [X] share one
    object: the later one replaces what the earlier one stored, and the
    bucket has no more objects than before it. *)
Theorem last_write_wins ucfg io1 io2 r1 r2 s s1 s2 report1 report2 :
  handleUpload ucfg io1 r1 s = (content.Status http.StatusOK, s1) ->
  handleUpload ucfg io2 r2 s1 = (content.Status http.StatusOK, s2) ->
  json_Decode (http.Body r1) = inl report1 ->
  json_Decode (http.Body r2) = inl report2 ->
  Week report1 = Week report2 ->
  X report1 = X report2 ->
  exists data2,
    json_Marshal report2 = inl data2 /\
    storage.Upload (buckets s2) !! object_name report1 = Some (data2 +:+ nl) /\
    dom (storage.Upload (buckets s2)) = dom (storage.Upload (buckets s1)).
Proof.
  intros H1 H2 Hd1 Hd2 Hweek Hx.
  apply ingest.handleUpload_accepted in H1
    as (report1' & data1 & _ & Hd1' & _ & Hj1 & ->).
  apply ingest.handleUpload_accepted in H2
    as (report2' & data2 & _ & Hd2' & _ & Hj2 & ->).
  rewrite Hd1 in Hd1'. injection Hd1' as <-.
  rewrite Hd2 in Hd2'. injection Hd2' as <-.
  assert (object_name report2 = object_name report1) as Hname.
  { unfold object_name. now rewrite Hweek, Hx. }
  exists data2. split; [assumption|].
  cbn [buckets storage.set_Upload storage.Upload]. rewrite Hname.
  split; [apply lookup_insert_eq|].
  rewrite insert_insert_eq. rewrite !dom_insert_L. reflexivity.
Qed.

End handler.

Lemma last_write_wins_witness :
  let handle := @handleUpload fixture.lib_again fixture.ucfg storage.no_faults in
  let s1 := (handle (fixture.POST fixture.body) fixture.server0).2 in
  let s2 := (handle (fixture.POST fixture.body_again) s1).2 in
  exists data2,
    fixture.marshal fixture.report_again = inl data2 /\
    storage.Upload (buckets s2) !! @object_name fixture.lib_again fixture.report
      = Some (data2 +:+ nl) /\
    dom (storage.Upload (buckets s2)) = dom (storage.Upload (buckets s1)).
Proof.
  apply (@last_write_wins fixture.lib_again fixture.ucfg
           storage.no_faults storage.no_faults
           (fixture.POST fixture.body) (fixture.POST fixture.body_again)
           fixture.server0 _ _ fixture.report fixture.report_again);
    vm_compute; reflexivity.
Defined.

Lemma handleUpload_log_witness :
  exists line,
    logged (@handleUpload fixture.lib fixture.ucfg storage.no_faults
              (fixture.POST fixture.long_body) fixture.server0).2
    = ([] ++ [line])%list /\
    String.length line <= 342.
Proof.
  apply (@handleUpload_log fixture.lib fixture.ucfg storage.no_faults
           (fixture.POST fixture.long_body) fixture.server0).
  vm_compute. reflexivity.
Defined.

End upload_handler.

(* ===================================================================== *)
(** * The pages: from the index to a chart *)
(* ===================================================================== *)

Module pages.
Import telemetrygodev strings_facts.

Lemma copy_element_no_slash (s : string) (out : list ascii) :
  strings.contains_byte "/" s = false ->
  path.copy_element s out = ("", (rev (list_ascii_of_string s) ++ out)%list).
Proof.
  revert out. induction s as [|a s IH]; intros out Hs; [reflexivity|].
  cbn [strings.contains_byte] in Hs. apply orb_false_iff in Hs as [Ha Hs].
  cbn [path.copy_element]. rewrite Ha, IH by assumption.
  simpl. now rewrite <- app_assoc.
Qed.

Lemma string_of_rev_app (s : string) (l : list ascii) :
  string_of_list_ascii (rev (rev (list_ascii_of_string s) ++ l)%list) =
  string_of_list_ascii (rev l) +:+ s.
Proof.
  rewrite rev_app_distr, rev_involutive.
  induction (rev l) as [|a l' IH]; simpl.
  - rewrite append_nil_l. apply string_of_list_ascii_of_string.
  - rewrite append_cons. now rewrite IH.
Qed.

(** A chart URL whose last element is an ordinary name is clean. *)
Lemma Clean_chart_URL (date : string) :
  strings.contains_byte "/" date = false ->
  date <> "" -> date <> "." -> date <> ".." ->
  path.Clean ("/charts/" +:+ date) = "/charts/" +:+ date.
Proof.
  intros Hslash Hne Hdot Hdotdot.
  change ("/charts/" +:+ date)
    with (String "/" (String "c" (String "h" (String "a" (String "r"
           (String "t" (String "s" (String "/" date)))))))).
  unfold path.Clean. cbn [Ascii.eqb Bool.eqb String.length].
  cbn [path.clean_loop Ascii.eqb Bool.eqb andb orb negb path.at_end_or_slash
       length Nat.eqb Nat.ltb Nat.leb path.copy_element].
  destruct date as [|a date]; [congruence|].
  cbn [strings.contains_byte] in Hslash.
  apply orb_false_iff in Hslash as [Ha Hslash].
  cbn [String.length path.clean_loop]. rewrite Ha.
  assert ((Ascii.eqb a "." && path.at_end_or_slash date) = false) as ->.
  { destruct (Ascii.eqb_spec a ".") as [->|]; [|reflexivity].
    destruct date as [|b date]; [congruence|].
    cbn [strings.contains_byte path.at_end_or_slash] in *.
    now apply orb_false_iff in Hslash as [-> _]. }
  assert ((Ascii.eqb a "." &&
           match date with
           | String c1 rest2 => Ascii.eqb c1 "." && path.at_end_or_slash rest2
           | "" => false
           end) = false) as ->.
  { destruct (Ascii.eqb_spec a ".") as [->|]; [|reflexivity].
    destruct date as [|b date]; [reflexivity|].
    destruct (Ascii.eqb_spec b ".") as [->|]; [|reflexivity].
    destruct date as [|c date]; [congruence|].
    cbn [strings.contains_byte path.at_end_or_slash] in *.
    apply orb_false_iff in Hslash as [_ Hslash].
    now apply orb_false_iff in Hslash as [-> _]. }
  cbn [length Nat.eqb andb orb negb].
  change (path.copy_element (String a date) ?o)
    with (if Ascii.eqb a "/" then (String a date, o)
          else path.copy_element date (a :: o)).
  rewrite Ha, copy_element_no_slash by assumption.
  destruct (String.length date) as [|n]; cbn [path.clean_loop];
    match goal with
    | |- (if ?c then _ else _) = _ =>
        assert (c = false) as ->
          by (rewrite length_app; simpl; apply Nat.eqb_neq; lia)
    end;
    rewrite (string_of_rev_app date); reflexivity.
Qed.

Section charts.
Context {Data : Type} (json_Unmarshal : string -> Data + error).

(** The index page has a link for every object listed in the chart
    bucket.  When the object is named [date.json], for an ordinary name
    [date], the link is labelled [date] and the chart page it points to
    shows the charts of that object. *)
Theorem chart_link_leads_to_chart (charts merged : Listing) (mergeURI : string)
    (b : storage.API) (obj : string) (err : option error) (data : string)
    (cs : Data) :
  (obj, err) ∈ charts ->
  strings.HasSuffix obj ".json" = true ->
  let date := strings.TrimSuffix obj ".json" in
  strings.contains_byte "/" date = false ->
  date <> "" -> date <> "." -> date <> ".." ->
  storage.Chart b !! obj = Some data ->
  json_Unmarshal data = inl cs ->
  exists page l,
    handleRoot charts merged mergeURI "/" =
      Template "index.html" page http.StatusOK /\
    l ∈ Charts page /\
    Text l = date /\
    handleChart json_Unmarshal no_read_faults b (URL l) =
      Template "charts.html" cs http.StatusOK.
Proof.
  intros Hin Hsuf date Hslash Hne Hdot Hdotdot Hobj Hjson.
  eexists _, {| Text := date; URL := "/charts/" +:+ date |}.
  split; [reflexivity|]. split; [|split; [reflexivity|]].
  - cbn [Charts]. apply list_elem_of_In, in_map_iff.
    exists (obj, err). split; [reflexivity | now apply list_elem_of_In].
  - unfold handleChart. cbn [URL NewReader_err ReadAll_err no_read_faults].
    rewrite Clean_chart_URL by assumption.
    rewrite strings_trim.TrimPrefix_append.
    unfold date. rewrite strings_trim.TrimSuffix_HasSuffix by assumption.
    now rewrite Hobj, Hjson.
Qed.

End charts.

Lemma chart_link_leads_to_chart_witness :
  exists page l,
    handleRoot fixture.chart_listing fixture.merge_listing "gs://merged" "/" =
      Template "index.html" page http.StatusOK /\
    l ∈ Charts page /\
    Text l = strings.TrimSuffix "2024-01-15.json" ".json" /\
    handleChart fixture.unmarshal no_read_faults fixture.chart_api (URL l) =
      Template "charts.html" "{charts of 2024-01-15}" http.StatusOK.
Proof.
  apply (chart_link_leads_to_chart fixture.unmarshal
           fixture.chart_listing fixture.merge_listing "gs://merged"
           fixture.chart_api "2024-01-15.json" None "{charts of 2024-01-15}");
    try reflexivity; try discriminate.
  right. left.
Defined.

End pages.

(* ===================================================================== *)
(** * The logger of package upload *)
(* ===================================================================== *)

Module logging.
Import upload.

Lemma SetLogOutput_seen (w : option Writer) (st : rev2.Logging) :
  rev2.seenlogwriters (rev2.SetLogOutput w st) =
  (rev2.seenlogwriters st ++ option_list w)%list.
Proof. destruct w; simpl; [reflexivity | now rewrite app_nil_r]. Qed.

Lemma SetLogOutput_destinations (w : option Writer) (st : rev2.Logging) :
  destinations (rev2.logger st) = rev2.seenlogwriters st ->
  destinations (rev2.logger (rev2.SetLogOutput w st)) =
  rev2.seenlogwriters (rev2.SetLogOutput w st).
Proof.
  intros Hst. destruct w as [w|]; [|exact Hst].
  cbn [rev2.SetLogOutput rev2.logger rev2.seenlogwriters].
  destruct (rev2.seenlogwriters st) as [|w0 seen]; [reflexivity|].
  assert ((1 <? length ((w0 :: seen) ++ [w]))%nat = true) as ->
    by (apply Nat.ltb_lt; rewrite length_app; simpl; lia).
  reflexivity.
Qed.

Lemma SetLogOutputs_invariant (ws : list (option Writer)) (st : rev2.Logging) :
  destinations (rev2.logger st) = rev2.seenlogwriters st ->
  destinations (rev2.logger (rev2.SetLogOutputs ws st)) =
    rev2.seenlogwriters (rev2.SetLogOutputs ws st) /\
  rev2.seenlogwriters (rev2.SetLogOutputs ws st) =
    (rev2.seenlogwriters st ++ omap id ws)%list.
Proof.
  revert st. induction ws as [|w ws IH]; intros st Hst.
  - split; [exact Hst | now rewrite app_nil_r].
  - destruct (IH (rev2.SetLogOutput w st) (SetLogOutput_destinations w st Hst))
      as [Hd Hs].
    change (rev2.SetLogOutputs (w :: ws) st)
      with (rev2.SetLogOutputs ws (rev2.SetLogOutput w st)).
    split; [exact Hd|]. rewrite Hs, SetLogOutput_seen.
    rewrite <- app_assoc. f_equal. now destruct w.
Qed.

(** In the later revision every writer ever passed to [SetLogOutput]
    keeps receiving the log: after any sequence of calls since [init],
    the logger writes to the non-nil arguments of all the calls, in the
    order of the calls, and to a writer passed twice it writes twice. *)
Theorem SetLogOutput_accumulates (ws : list (option Writer)) :
  destinations (rev2.logger (rev2.SetLogOutputs ws rev2.init)) = omap id ws.
Proof.
  destruct (SetLogOutputs_invariant ws rev2.init eq_refl) as [Hd Hs].
  now rewrite Hd, Hs.
Qed.

(** In the earlier revision the logger writes to the writer of the last
    call of [SetLogOutput] with a non-nil argument, and to no other. *)
Theorem SetLogOutput_last_wins (ws : list (option Writer)) :
  destinations (rev1.SetLogOutputs ws Discard) = option_list (last (omap id ws)).
Proof.
  assert (forall o, destinations (rev1.SetLogOutputs ws o) =
            match last (omap id ws) with
            | Some w => [w]
            | None => destinations o
            end) as Hgen.
  { induction ws as [|w ws IH]; intros o; [reflexivity|].
    change (rev1.SetLogOutputs (w :: ws) o)
      with (rev1.SetLogOutputs ws (rev1.SetLogOutput w o)).
    rewrite IH.
    destruct w as [w|]; [|reflexivity].
    change (omap id (Some w :: ws)) with (w :: omap id ws). rewrite last_cons.
    now destruct (last (omap id ws)). }
  rewrite Hgen. now destruct (last (omap id ws)).
Qed.

Section LogIfDebug.
Context `{rev2.PathLib}.

(** What one call of [LogIfDebug] may do. *)
Lemma LogIfDebug_cases (proc : rev2.Process) (fault : option error)
    (dirname : string) (fs : rev2.FS) (log : rev2.Logging) :
  (exists out, rev2.LogIfDebug proc fault dirname (fs, log) = (out, (fs, log)) /\
     (fault = None -> fs !! rev2.debug_dir proc dirname = Some true ->
      out = rev2.Return None ->
      exists fname, is_Some (fs !! fname))) \/
  (exists fname,
     rev2.LogIfDebug proc fault dirname (fs, log) =
       (rev2.Return None,
        (<[fname := false]> fs, rev2.SetLogOutput (Some fname) log)) /\
     fault = None /\
     fs !! rev2.debug_dir proc dirname = Some true /\
     fs !! fname = None /\
     strings.contains_byte " " fname = false).
Proof.
  unfold rev2.LogIfDebug, rev2.debug_dir, rev2.os_Stat.
  destruct (fs !! _) as [[|]|] eqn:Hdir; cbn [negb].
  2, 3: left; eexists; split; [reflexivity | discriminate].
  destruct (rev2.ReadBuildInfo proc) as [info|].
  2: left; eexists; split; [reflexivity | discriminate].
  destruct (rev2.strings_Fields _) as [|goVers words].
  1: left; eexists; split; [reflexivity | discriminate].
  rewrite strings_trim.ReplaceAll_byte.
  match goal with |- context [strings.remove_byte " " ?s] =>
    set (fname := strings.remove_byte " " s) end.
  destruct (fs !! fname) as [isDir|] eqn:Hf.
  { left. eexists. split; [reflexivity|]. intros _ _ _. now exists fname, isDir. }
  destruct fault as [e|]; cbn [rev2.os_Create].
  { left. eexists. split; [reflexivity | discriminate]. }
  right. exists fname. repeat split; try assumption.
  apply strings_trim.remove_byte_clean.
Qed.

(** One call of [LogIfDebug] either leaves the files and the logger as
    they were, or returns nil after creating exactly one file, of a name
    that did not exist and has no space in it, and adding that file to
    the writers of the logger. *)
Theorem LogIfDebug_effects (proc : rev2.Process) (fault : option error)
    (dirname : string) (fs : rev2.FS) (log : rev2.Logging) :
  let '(out, (fs', log')) := rev2.LogIfDebug proc fault dirname (fs, log) in
  (fs' = fs /\ log' = log) \/
  (exists fname,
     out = rev2.Return None /\
     fs !! fname = None /\
     fs' = <[fname := false]> fs /\
     log' = rev2.SetLogOutput (Some fname) log /\
     strings.contains_byte " " fname = false).
Proof.
  destruct (LogIfDebug_cases proc fault dirname fs log)
    as [(out & -> & _) | (fname & -> & _ & _ & Hnew & Hsp)].
  - now left.
  - right. now exists fname.
Qed.

(** A further call of [LogIfDebug] for the same directory, while the
    date that names the log file has not changed. *)
Lemma LogIfDebug_again (proc : rev2.Process) (fault : option error)
    (dirname : string) (st : rev2.FS * rev2.Logging) :
  let first := rev2.LogIfDebug proc None dirname st in
  let second := rev2.LogIfDebug proc fault dirname first.2 in
  second.2 = first.2 /\
  (first.1 = rev2.Return None -> second.1 = rev2.Return None).
Proof.
  destruct st as [fs log]. cbv zeta.
  destruct (rev2.LogIfDebug proc None dirname (fs, log)) as [out1 st1] eqn:H1.
  cbn [fst snd]. revert H1.
  unfold rev2.LogIfDebug at 1. unfold rev2.os_Stat.
  destruct (fs !! _) as [[|]|] eqn:Hdir; cbn [negb].
  2, 3: intros [= <- <-]; unfold rev2.LogIfDebug, rev2.os_Stat; rewrite Hdir;
        cbn [negb]; now split.
  destruct (rev2.ReadBuildInfo proc) as [info|] eqn:Hinfo.
  2: intros [= <- <-]; unfold rev2.LogIfDebug, rev2.os_Stat; rewrite Hdir, Hinfo;
     cbn [negb]; now split.
  destruct (rev2.strings_Fields _) as [|goVers words] eqn:Hwords.
  1: intros [= <- <-]; unfold rev2.LogIfDebug, rev2.os_Stat;
     rewrite Hdir, Hinfo, Hwords; cbn [negb]; now split.
  match goal with |- context [strings.ReplaceAll ?s " " ""] =>
    set (fname := strings.ReplaceAll s " " "") end.
  destruct (fs !! fname) as [isDir|] eqn:Hf.
  { intros [= <- <-]. unfold rev2.LogIfDebug, rev2.os_Stat.
    rewrite Hdir, Hinfo, Hwords. cbn [negb]. fold fname. rewrite Hf. now split. }
  cbn [rev2.os_Create]. intros [= <- <-].
  unfold rev2.LogIfDebug, rev2.os_Stat.
  assert (fname <> if negb (String.eqb dirname "") then dirname
                   else rev2.filepath_Join (rev2.LocalDir proc) "debug")
    as Hne by congruence.
  rewrite lookup_insert_ne, Hdir, Hinfo, Hwords by exact Hne.
  cbn [negb]. fold fname. rewrite lookup_insert_eq. now split.
Qed.

(** A second call of [LogIfDebug] by the same process on the same UTC
    date changes nothing.  The date is read anew at each call: [proc']
    is the process at the second call, with the build information,
    process id, [os.Args[0]] and local directory of the first.  When
    its date is that of the first call, and creating the file did not
    fail in the first call, the second call for the same directory
    leaves the files and the logger as the first call left them, and
    returns nil if the first call did. *)
Theorem LogIfDebug_twice (proc proc' : rev2.Process) (fault : option error)
    (dirname : string) (st : rev2.FS * rev2.Logging) :
  rev2.ReadBuildInfo proc' = rev2.ReadBuildInfo proc ->
  rev2.Getpid proc' = rev2.Getpid proc ->
  rev2.Args0 proc' = rev2.Args0 proc ->
  rev2.LocalDir proc' = rev2.LocalDir proc ->
  rev2.Date proc' = rev2.Date proc ->
  let first := rev2.LogIfDebug proc None dirname st in
  let second := rev2.LogIfDebug proc' fault dirname first.2 in
  second.2 = first.2 /\
  (first.1 = rev2.Return None -> second.1 = rev2.Return None).
Proof.
  intros Hinfo Hpid Hargs Hdir Hdate.
  assert (proc' = proc) as ->
    by (destruct proc, proc'; cbn in *; congruence).
  apply LogIfDebug_again.
Qed.

(** [LogIfDebug] never creates a file under a directory whose name
    contains a space: when the name of the debug directory contains a
    space, no name that the call adds to the file system starts with the
    name of that directory. *)
Theorem LogIfDebug_spaced_directory (proc : rev2.Process) (fault : option error)
    (dirname : string) (fs : rev2.FS) (log : rev2.Logging) (name : string) :
  strings.contains_byte " " (rev2.debug_dir proc dirname) = true ->
  let fs' := (rev2.LogIfDebug proc fault dirname (fs, log)).2.1 in
  fs' !! name <> fs !! name ->
  strings.HasPrefix name (rev2.debug_dir proc dirname) = false.
Proof.
  intros Hsp fs' Hname. subst fs'.
  destruct (LogIfDebug_cases proc fault dirname fs log)
    as [(out & Heq & _) | (fname & Heq & _ & _ & _ & Hclean)];
    rewrite Heq in Hname; cbn [fst snd] in Hname; [congruence|].
  destruct (decide (name = fname)) as [->|Hne].
  - destruct (strings.HasPrefix fname _) eqn:Hp; [|reflexivity].
    pose proof (strings_trim.HasPrefix_contains " " _ _ Hp Hsp). congruence.
  - now rewrite lookup_insert_ne in Hname.
Qed.

(** The logger keeps every writer it had across [LogIfDebug], and the
    package variables stay consistent: when the logger writes to the
    writers recorded as seen, it does so afterwards too, and these are
    the writers it wrote to before, followed by the log file if the call
    created one. *)
Theorem LogIfDebug_keeps_writers (proc : rev2.Process) (fault : option error)
    (dirname : string) (fs : rev2.FS) (log : rev2.Logging) :
  destinations (rev2.logger log) = rev2.seenlogwriters log ->
  let '(fs', log') := (rev2.LogIfDebug proc fault dirname (fs, log)).2 in
  destinations (rev2.logger log') = rev2.seenlogwriters log' /\
  exists added,
    destinations (rev2.logger log') =
      (destinations (rev2.logger log) ++ added)%list /\
    (added = [] /\ fs' = fs \/
     exists fname, added = [fname] /\ fs !! fname = None /\
                   fs' !! fname = Some false).
Proof.
  intros Hinv.
  destruct (LogIfDebug_cases proc fault dirname fs log)
    as [(out & -> & _) | (fname & -> & _ & _ & Hnew & _)]; cbn [fst snd].
  - split; [exact Hinv|]. exists []. rewrite app_nil_r. split; [reflexivity|].
    now left.
  - pose proof (SetLogOutput_destinations (Some fname) log Hinv) as Hinv'.
    split; [exact Hinv'|]. exists [fname]. split.
    + now rewrite Hinv', SetLogOutput_seen, Hinv.
    + right. exists fname. now rewrite lookup_insert_eq.
Qed.

End LogIfDebug.

Lemma LogIfDebug_twice_witness :
  let first :=
    @rev2.LogIfDebug fixture.unix fixture.gopls None ""
      (fixture.debug_fs, rev2.init) in
  let second :=
    @rev2.LogIfDebug fixture.unix fixture.gopls None "" first.2 in
  second.2 = first.2 /\
  (first.1 = rev2.Return None -> second.1 = rev2.Return None).
Proof.
  apply (@LogIfDebug_twice fixture.unix fixture.gopls fixture.gopls None ""
           (fixture.debug_fs, rev2.init)); reflexivity.
Defined.

(** On the next day the same process gets a second log file, and the
    logger writes to both. *)
Example LogIfDebug_next_day :
  let first :=
    @rev2.LogIfDebug fixture.unix fixture.gopls None ""
      (fixture.debug_fs, rev2.init) in
  let second :=
    @rev2.LogIfDebug fixture.unix fixture.gopls_next_day None "" first.2 in
  destinations (rev2.logger second.2.2) =
  ["/home/gopher/.config/go/telemetry/local/debug/gopls-v0.14.2-go1.22-20240109-RC01-20240109-4711.log";
   "/home/gopher/.config/go/telemetry/local/debug/gopls-v0.14.2-go1.22-20240109-RC01-20240110-4711.log"].
Proof. vm_compute. reflexivity. Qed.

Lemma LogIfDebug_spaced_directory_witness :
  strings.HasPrefix "/home/gopher/debug/gopls-v0.14.2-go1.22-20240109-RC01-20240109-4711.log"
    "/home/go pher/debug" = false.
Proof.
  apply (@LogIfDebug_spaced_directory fixture.unix fixture.gopls None
           "/home/go pher/debug" fixture.spaced_fs rev2.init).
  - reflexivity.
  - vm_compute. discriminate.
Defined.

Lemma LogIfDebug_keeps_writers_witness :
  let '(fs', log') :=
    (@rev2.LogIfDebug fixture.unix fixture.gopls None ""
       (fixture.debug_fs, fixture.client_logging)).2 in
  destinations (rev2.logger log') = rev2.seenlogwriters log' /\
  exists added,
    destinations (rev2.logger log') =
      (destinations (rev2.logger fixture.client_logging) ++ added)%list /\
    (added = [] /\ fs' = fixture.debug_fs \/
     exists fname, added = [fname] /\ fixture.debug_fs !! fname = None /\
                   fs' !! fname = Some false).
Proof.
  apply (@LogIfDebug_keeps_writers fixture.unix fixture.gopls None ""
           fixture.debug_fs fixture.client_logging).
  reflexivity.
Defined.

(** The client asked for logging, and there is also a debug directory:
    the log goes to both. *)
Example client_and_debug_directory :
  destinations (rev2.logger
    (@rev2.LogIfDebug fixture.unix fixture.gopls None ""
       (fixture.debug_fs, fixture.client_logging)).2.2) =
  ["stderr";
   "/home/gopher/.config/go/telemetry/local/debug/gopls-v0.14.2-go1.22-20240109-RC01-20240109-4711.log"].
Proof. vm_compute. reflexivity. Qed.

End logging.

(* ===================================================================== *)
(** * The sanitized counter names *)
(* ===================================================================== *)

Module sanitized.
Import strings crashmonitor.

(** The sanitized name, line by line. *)
Lemma sanitize_Join (name : string) :
  sanitize name = Join (map redact (Split name nl)) nl.
Proof. reflexivity. Qed.

(** Redacting a symbol followed by [:--] changes nothing. *)
Lemma redact_redacted (symbol : string) :
  contains_byte ":" symbol = false ->
  redact (symbol +:+ ":--") = symbol +:+ ":--".
Proof.
  intros Hsym. unfold redact.
  change (symbol +:+ ":--") with (symbol +:+ String ":" "--").
  rewrite strings_facts.Cut_byte, strings_facts.cut_byte_append by assumption.
  cbv beta iota. now destruct (negb (HasPrefix _ own_package)).
Qed.

(** Redacting a redacted line changes nothing. *)
Lemma redact_redact (line : string) : redact (redact line) = redact line.
Proof.
  destruct (Cut line ":") as [[symbol after] ok] eqn:Hcut.
  destruct (ok && negb (HasPrefix line own_package)) eqn:Hgo.
  - assert (redact line = symbol +:+ ":--") as ->
      by (unfold redact; now rewrite Hcut, Hgo).
    apply andb_true_iff in Hgo as [-> _].
    apply strings_facts.Cut_byte_found in Hcut as [_ Hsym].
    now apply redact_redacted.
  - assert (redact line = line) as ->
      by (unfold redact; now rewrite Hcut, Hgo).
    unfold redact. now rewrite Hcut, Hgo.
Qed.

(** A line of a string has no byte that the string does not have. *)
Lemma split_byte_contains (d c : ascii) (s line : string) :
  In line (split_byte c s) ->
  contains_byte d s = false -> contains_byte d line = false.
Proof.
  revert line. induction s as [|a s IH]; simpl; intros line Hin Hd.
  - now destruct Hin as [<-|[]].
  - apply orb_false_iff in Hd as [Had Hd].
    destruct (Ascii.eqb a c).
    + destruct Hin as [<-|Hin]; [reflexivity | now apply IH].
    + destruct (split_byte c s) as [|h t] eqn:Hs.
      * destruct Hin as [<-|[]]. simpl. now rewrite Had.
      * destruct Hin as [<-|Hin].
        -- simpl. rewrite Had. apply IH; [now left | assumption].
        -- apply IH; [now right | assumption].
Qed.

(** [sanitize] is idempotent: a sanitized name is its own sanitized
    name. *)
Theorem sanitize_idempotent (name : string) :
  sanitize (sanitize name) = sanitize name.
Proof.
  rewrite (sanitize_Join (sanitize name)), crash.sanitize_lines, map_map.
  rewrite sanitize_Join. f_equal. apply map_ext, redact_redact.
Qed.

(** Every line of a sanitized name begins with the bytes of the package
    path [golang.org/x/telemetry/crashmonitor], or has no colon, or is
    a symbol without a colon followed by [:--].  The first kind are the
    lines that the guard of [sanitize] lets through with their line
    numbers: the frames of the crash monitor's package, and also those
    of any package whose path begins with these bytes. *)
Theorem sanitize_line_forms (name line : string) :
  In line (Split (sanitize name) nl) ->
  HasPrefix line own_package = true \/
  contains_byte ":" line = false \/
  exists symbol, line = symbol +:+ ":--" /\ contains_byte ":" symbol = false.
Proof.
  rewrite crash.sanitize_lines. intros Hin.
  apply in_map_iff in Hin as (l0 & <- & _). unfold redact.
  destruct (Cut l0 ":") as [[symbol after] [|]] eqn:Hcut; cbn [andb].
  - destruct (HasPrefix l0 own_package) eqn:Hown; cbn [negb].
    + now left.
    + right. right. exists symbol. split; [reflexivity|].
      now apply strings_facts.Cut_byte_found in Hcut as [_ Hsym].
  - right. left. now apply strings_facts.Cut_byte_not_found in Hcut as (_ & _ & Hno).
Qed.

(** A name without a colon, so one without a stack, is sanitized to
    itself. *)
Theorem sanitize_without_colon (name : string) :
  contains_byte ":" name = false -> sanitize name = name.
Proof.
  intros Hname. rewrite sanitize_Join. unfold nl.
  rewrite strings_facts.Split_byte.
  rewrite <- (strings_facts.Join_split_byte "010" name) at 2.
  f_equal. rewrite <- (map_id (split_byte "010" name)) at 2.
  apply map_ext_in. intros line Hline. unfold redact.
  pose proof (split_byte_contains ":" "010" name line Hline Hname) as Hno.
  rewrite strings_facts.Cut_byte.
  apply strings_facts.cut_byte_None in Hno. now rewrite Hno.
Qed.

(** The guard is a test on bytes: a frame of the package
    [crashmonitor_test], or of a package below [crashmonitor], keeps
    its line number. *)
Example sanitize_keeps_longer_paths :
  sanitize ("crash/crash" +:+ nl +:+
            "golang.org/x/telemetry/crashmonitor_test.TestX:12" +:+ nl +:+
            "golang.org/x/telemetry/crashmonitor/internal/x.f:7") =
  "crash/crash" +:+ nl +:+
  "golang.org/x/telemetry/crashmonitor_test.TestX:12" +:+ nl +:+
  "golang.org/x/telemetry/crashmonitor/internal/x.f:7".
Proof. vm_compute. reflexivity. Qed.

Lemma sanitize_line_forms_witness :
  HasPrefix "runtime.gopanic:--" own_package = true \/
  contains_byte ":" "runtime.gopanic:--" = false \/
  exists symbol, "runtime.gopanic:--" = symbol +:+ ":--" /\
                 contains_byte ":" symbol = false.
Proof.
  apply (sanitize_line_forms raw_stack "runtime.gopanic:--").
  vm_compute. right. left. reflexivity.
Defined.

Lemma sanitize_without_colon_witness : sanitize "crash/crash" = "crash/crash".
Proof. apply (sanitize_without_colon "crash/crash"). reflexivity. Defined.

Lemma sanitize_redacts_other_frames_witness :
  Split (sanitize raw_stack) nl !! 5 = Some "main.main:--".
Proof.
  apply (crash.sanitize_redacts_other_frames raw_stack 5 "main.main:35"
           "main.main" "35"); vm_compute; reflexivity.
Defined.

End sanitized.

(* ===================================================================== *)
(** * One pass of the uploader, call by call *)
(* ===================================================================== *)

Module passes.
Import upload.

Section pass.
Context {Uploader World Work : Type} `{Collaborators Uploader World Work}.

(** On a platform that is not disabled, [Run] calls [findWork] and
    [reports] once each, logs one line if and only if [reports] returns
    an error, before any upload, and then calls [uploadReport] for the
    ready reports in order, each on the world the one before has left;
    it makes no other call. *)
Theorem Run_calls (u : Uploader) (w w1 w2 : World) (todo : Work)
    (ready : list string) (err : option error) :
  findWork u w = (todo, w1) ->
  reports u todo w1 = ((ready, err), w2) ->
  let result :=
    (tt, foldl (fun w f => (uploadReport u f w).2) w2 ready,
     [FindWork; Reports] ++
     match err with Some e => [Printf ("reports: " +:+ e)] | None => [] end ++
     map UploadReport ready)%list in
  (DisabledOnPlatform = false -> rev2.Run u w = result) /\
  (forall P : runtime.Platform,
      rev1.disabledOnPlatform = false -> rev1.Run u w = result).
Proof.
  intros Hf Hr result.
  assert (pass u w = result) as Hpass.
  { unfold pass.
    unfold bind at 1. unfold call at 1. rewrite Hf.
    unfold bind at 1. unfold call at 1. rewrite Hr.
    unfold bind at 1.
    destruct err as [e|]; unfold logger_Printf, ret;
      now rewrite (uploader.for_range_world u ready w2). }
  split.
  - intros Hd. unfold rev2.Run. now rewrite Hd.
  - intros P Hd. unfold rev1.Run. now rewrite Hd.
Qed.

End pass.

Lemma Run_calls_witness :
  let result :=
    (tt, foldl (fun w f => (@uploadReport _ _ _ (fixture.collaborators false) tt f w).2)
           [] ["2024-01-08.json"; "2024-01-15.json"],
     [FindWork; Reports; UploadReport "2024-01-08.json";
      UploadReport "2024-01-15.json"]) in
  @rev2.Run _ _ _ (fixture.collaborators false) tt [] = result /\
  @rev1.Run _ _ _ (fixture.collaborators false) fixture.linux_amd64 tt [] = result.
Proof.
  destruct (@Run_calls _ _ _ (fixture.collaborators false)
              tt [] [] [] tt ["2024-01-08.json"; "2024-01-15.json"] None
              eq_refl eq_refl) as [H2 H1].
  split; [apply H2; reflexivity | apply (H1 fixture.linux_amd64); reflexivity].
Defined.

End passes.

(* ===================================================================== *)
(** * Uploads that fail after validation *)
(* ===================================================================== *)

Module upload_failures.
Import telemetry telemetrygodev.

Section handler.
Context `{GoLib}.

(** An upload that is not answered with 200 stores no report: the
    buckets are as they were, for any storage error, except when
    [json.Marshal] fails; then the deferred [Close] of the writer, to
    which nothing was written, leaves an empty object under the
    report's name. *)
Theorem failed_upload_stores_no_report ucfg io r s :
  let out := handleUpload ucfg io r s in
  out.1 <> content.Status http.StatusOK ->
  buckets out.2 = buckets s \/
  exists report e,
    json_Decode (http.Body r) = inl report /\
    json_Marshal report = inr e /\
    out.1 = content.Failed e /\
    buckets out.2 =
      storage.set_Upload (buckets s)
        (<[object_name report := ""]> (storage.Upload (buckets s))).
Proof.
  cbv zeta. unfold handleUpload.
  destruct (String.eqb (http.Method r) "POST"); [|now left].
  destruct (json_Decode (http.Body r)) as [report|err]; [|now left].
  destruct (validate report ucfg) as [err|]; [now left|].
  unfold deferred_Close, storage.NewWriter, Encode, storage.Write, storage.Close.
  destruct (storage.NewWriter_err io) as [e|]; [now left|].
  destruct (json_Marshal report) as [data|e] eqn:Hm; cbn.
  - destruct (storage.Write_err io) as [e1|]; cbn; [now left|].
    destruct (storage.Close_err io) as [e2|]; cbn; [now left|].
    intros Hne. now elim Hne.
  - destruct (storage.Close_err io) as [e2|]; cbn; [now left|].
    intros _. right. now exists report, e.
Qed.

End handler.

Lemma failed_upload_stores_no_report_witness :
  let io := {| storage.NewWriter_err := None;
               storage.Write_err := Some "write: connection reset";
               storage.Close_err := None |} in
  let out := @handleUpload fixture.lib fixture.ucfg io (fixture.POST fixture.body) fixture.server0 in
  buckets out.2 = buckets fixture.server0 \/
  exists report e,
    @json_Decode fixture.lib (http.Body (fixture.POST fixture.body)) = inl report /\
    @json_Marshal fixture.lib report = inr e /\
    out.1 = content.Failed e /\
    buckets out.2 =
      storage.set_Upload (buckets fixture.server0)
        (<[@object_name fixture.lib report := ""]> (storage.Upload (buckets fixture.server0))).
Proof.
  apply (@failed_upload_stores_no_report fixture.lib fixture.ucfg
           {| storage.NewWriter_err := None;
              storage.Write_err := Some "write: connection reset";
              storage.Close_err := None |} (fixture.POST fixture.body) fixture.server0).
  vm_compute. discriminate.
Defined.

End upload_failures.
